(** * Pizza storefront: pricing, availability, cart and checkout

    A shallow embedding of the client logic of the storefront
    ([client/src/App.jsx]): the custom-pizza price effect of
    [CustomBuilder], the density multiplier, the admin availability badge,
    the add-to-cart gate, the cart operations of [App] and the request and
    reconciliation steps of [payNow].

    JavaScript numbers are IEEE-754 binary64 values; they are modelled by
    [spec_float] with precision 53 and maximal exponent 1024, so sums and
    products round exactly as the engine does.  The stock and threshold
    counts of the inventory table are integers and are modelled by [Z]. *)

From stdpp Require Import gmap strings list.
From Stdlib Require Import ZArith QArith.
From Stdlib Require Import Floats.SpecFloat.

Local Open Scope string_scope.
Local Open Scope list_scope.
Local Open Scope Z_scope.

(** ** JavaScript numbers *)

Module Js.

Definition number := spec_float.

Definition prec : Z := 53.
Definition emax : Z := 1024.

Definition add : number -> number -> number := SFadd prec emax.
Definition mul : number -> number -> number := SFmul prec emax.
Definition div : number -> number -> number := SFdiv prec emax.

(** The number denoted by an integer literal. *)
Definition of_Z (z : Z) : number := binary_normalize prec emax z 0 false.

(** The number denoted by the decimal literal [n / 10^d], e.g. [0.20]. *)
Definition of_decimal (n : Z) (d : N) : number :=
  div (of_Z n) (of_Z (10 ^ Z.of_N d)).

(** ToBoolean on numbers: [0], [-0] and [NaN] are falsy. *)
Definition truthy (x : number) : bool :=
  match x with
  | S754_zero _ | S754_nan => false
  | _ => true
  end.

(** [x || 0] where [x] may be [undefined]. *)
Definition or_zero (x : option number) : number :=
  match x with
  | Some p => if truthy p then p else of_Z 0
  | None => of_Z 0
  end.

(** ToBoolean on strings: only the empty string is falsy. *)
Definition truthy_str (s : string) : bool := negb (bool_decide (s = "")).

(** [s || d] where [s] may be [undefined]. *)
Definition or_str (s : option string) (d : string) : string :=
  match s with
  | Some v => if truthy_str v then v else d
  | None => d
  end.

(** [String.prototype.toLowerCase].  Only the letters [A]-[Z] are mapped:
    no character outside ASCII lowers to a letter of the words this
    program compares against ("low", "light", "extra", "vegan") on its
    own, so the other characters are left as they are. *)
Definition lower_ascii (c : Ascii.ascii) : Ascii.ascii :=
  let n := Ascii.N_of_ascii c in
  if (65 <=? n)%N && (n <=? 90)%N then Ascii.ascii_of_N (n + 32) else c.

Fixpoint toLowerCase (s : string) : string :=
  match s with
  | EmptyString => EmptyString
  | String c r => String (lower_ascii c) (toLowerCase r)
  end.

(** [String.prototype.includes]. *)
Fixpoint includes (needle hay : string) : bool :=
  String.prefix needle hay ||
  match hay with
  | EmptyString => false
  | String _ r => includes needle r
  end.

(** [Array.prototype.find] on a total predicate: the first match. *)
Definition find {A} (p : A -> bool) (l : list A) : option A :=
  snd <$> list_find (fun x => p x = true) l.

(** [Array.prototype.some]. *)
Definition some {A} (p : A -> bool) (l : list A) : bool := existsb p l.

(** [Array.prototype.reduce] with an initial value. *)
Definition reduce {A B} (f : B -> A -> B) (l : list A) (init : B) : B :=
  fold_left f l init.

End Js.

Import Js.

(** ** Catalog and composition, as [CustomBuilder] holds them *)

Record Variant := {
  id : string;
  name : string;
  price : number;
  disabled : bool
}.

Record Options := {
  bases : list Variant;
  sauces : list Variant;
  cheeses : list Variant;
  veggies : list Variant
}.

Record Density := {
  d_sauce : option string;
  d_cheese : option string;
  d_toppings : option string
}.

(** [sel]: the ids of the chosen base, sauce and cheese (the empty string
    while none is chosen), the chosen veggie ids in the order they were
    added, the density settings, and the per-veggie levels, an object used
    as a map from veggie id to level (its own properties). *)
Record Selection := {
  sel_base : string;
  sel_sauce : string;
  sel_cheese : string;
  sel_veggies : list string;
  density : Density;
  toppingLevels : gmap string string
}.

(** The initial state of [sel]. *)
Definition initialSel : Selection :=
  {| sel_base := ""; sel_sauce := ""; sel_cheese := ""; sel_veggies := [];
     density := {| d_sauce := Some "normal"; d_cheese := Some "normal";
                   d_toppings := Some "normal" |};
     toppingLevels := ∅ |}.

(** ** The price effect of [CustomBuilder] *)

(** [find(arr, id)]: [arr.find(x => x.id === id)?.price || 0]. *)
Definition findPrice (arr : list Variant) (i : string) : number :=
  or_zero (price <$> Js.find (fun x => bool_decide (id x = i)) arr).

(** [norm(v)]: [String(v || 'normal').toLowerCase()]. *)
Definition norm (v : option string) : string :=
  toLowerCase (or_str v "normal").

(** [mult(amt)]. *)
Definition mult (amt : option string) : number :=
  let a := norm amt in
  if bool_decide (a = "low") || bool_decide (a = "light") then of_Z 1
  else if bool_decide (a = "extra") then of_Z 3
  else of_Z 2.

(** [sel.toppingLevels?.[id] ?? d.toppings ?? 'normal']. *)
Definition veggieLevel (sel : Selection) (i : string) : string :=
  match toppingLevels sel !! i with
  | Some l => l
  | None =>
      match d_toppings (density sel) with
      | Some l => l
      | None => "normal"
      end
  end.

(** [vegTotal]. *)
Definition vegTotal (opts : Options) (sel : Selection) : number :=
  Js.reduce
    (fun sum i =>
       let price := findPrice (veggies opts) i in
       let level := veggieLevel sel i in
       add sum (mul price (mult (Some level))))
    (sel_veggies sel) (of_Z 0).

(** [total], before rounding. *)
Definition customTotal (opts : Options) (sel : Selection) : number :=
  let base := findPrice (bases opts) (sel_base sel) in
  let sauceP := findPrice (sauces opts) (sel_sauce sel) in
  let cheeseP := findPrice (cheeses opts) (sel_cheese sel) in
  let d := density sel in
  let mSauce := mult (d_sauce d) in
  let mCheese := mult (d_cheese d) in
  add (add (add (add (of_Z 2) base) (mul sauceP mSauce)) (mul cheeseP mCheese))
      (vegTotal opts sel).

(** ** [Number(total.toFixed(2))] *)

(** The exact integer [z], not rounded to 53 bits. *)
Definition exact_Z (z : Z) : number :=
  match z with
  | Z0 => S754_zero false
  | Zpos p => S754_finite false p 0
  | Zneg p => S754_finite true p 0
  end.

(** [10^21 <= m * 2^e], the magnitude from which [toFixed] answers with
    [ToString]. *)
Definition ge_1e21 (m : positive) (e : Z) : bool :=
  if 0 <=? e then 10 ^ 21 <=? Zpos m * 2 ^ e
  else 10 ^ 21 * 2 ^ (- e) <=? Zpos m.

(** The integer [n] for which [n / 100 - m * 2^e] is as close to zero as
    possible, the larger one if there are two. *)
Definition hundredths (m : positive) (e : Z) : Z :=
  if 0 <=? e then 100 * Zpos m * 2 ^ e
  else (200 * Zpos m + 2 ^ (- e)) / 2 ^ (- e + 1).

(** The string [toFixed(2)] returns: a sign and the digits of [n] with a
    point before the last two, or the [ToString] of the number. *)
Inductive FixedString :=
  | FixedDigits (neg : bool) (n : Z)
  | NumberString (x : number).

Definition toFixed2 (x : number) : FixedString :=
  match x with
  | S754_zero _ => FixedDigits false 0
  | S754_finite s m e =>
      if ge_1e21 m e then NumberString x else FixedDigits s (hundredths m e)
  | _ => NumberString x
  end.

(** [Number(str)] on such a string: the binary64 value nearest to the
    decimal, and the number itself back from its [ToString]. *)
Definition Number_of (f : FixedString) : number :=
  match f with
  | FixedDigits neg n =>
      let v := div (exact_Z n) (exact_Z 100) in
      if neg then SFopp v else v
  | NumberString x => x
  end.

Definition round2 (x : number) : number := Number_of (toFixed2 x).

(** The value [setPrice] receives. *)
Definition customPrice (opts : Options) (sel : Selection) : number :=
  round2 (customTotal opts sel).

(** The effect itself: [price] is left as it is while [opts] is null. *)
Definition priceEffect (opts : option Options) (sel : Selection)
    (price : number) : number :=
  match opts with
  | None => price
  | Some o => customPrice o sel
  end.

(** The exact rational value of a finite number. *)
Definition to_Q (x : number) : Q :=
  match x with
  | S754_finite s m (Zneg k) => cond_Zopp s (Zpos m) # (2 ^ k)%positive
  | S754_finite s m e => inject_Z (cond_Zopp s (Zpos m) * 2 ^ e)
  | _ => 0%Q
  end.

(** [x] is a zero, a finite number or an infinity of sign [s]. *)
Definition has_sign (s : bool) (x : number) : Prop :=
  match x with
  | S754_zero s' | S754_infinity s' | S754_finite s' _ _ => s' = s
  | S754_nan => False
  end.

(** ** The add-to-cart gate of [CustomBuilder] *)

(** [arr?.find(x => x.id === id)?.disabled], [undefined] read as falsy. *)
Definition findDisabled (arr : list Variant) (i : string) : bool :=
  match Js.find (fun x => bool_decide (id x = i)) arr with
  | Some v => disabled v
  | None => false
  end.

Definition selectedDisabled (opts : Options) (sel : Selection) : bool :=
  (truthy_str (sel_base sel) && findDisabled (bases opts) (sel_base sel)) ||
  (truthy_str (sel_sauce sel) && findDisabled (sauces opts) (sel_sauce sel)) ||
  (truthy_str (sel_cheese sel) && findDisabled (cheeses opts) (sel_cheese sel)) ||
  Js.some (fun i => findDisabled (veggies opts) i) (sel_veggies sel).

Definition canAdd (opts : Options) (sel : Selection) : bool :=
  truthy_str (sel_base sel) && truthy_str (sel_sauce sel) &&
  truthy_str (sel_cheese sel) && negb (selectedDisabled opts sel).

(** ** The cart of [App] *)

Record Pizza := {
  _id : string;
  pizza_name : string;
  pizza_price : number
}.

(** A line is [{ pizza, quantity }] or [{ custom, price, quantity }]. *)
Inductive CartLine :=
  | MenuLine (pizza : Pizza) (quantity : number)
  | CustomLine (custom : Selection) (price : number) (quantity : number).

(** [x.pizza], [undefined] on a custom line. *)
Definition line_pizza (x : CartLine) : option Pizza :=
  match x with
  | MenuLine p _ => Some p
  | CustomLine _ _ _ => None
  end.

Definition quantity (x : CartLine) : number :=
  match x with
  | MenuLine _ q => q
  | CustomLine _ _ q => q
  end.

(** [{ ...x, quantity: q }]. *)
Definition with_quantity (x : CartLine) (q : number) : CartLine :=
  match x with
  | MenuLine p _ => MenuLine p q
  | CustomLine c pr _ => CustomLine c pr q
  end.

Inductive Error := TypeError.

Inductive Result (A : Type) :=
  | Ok (a : A)
  | Throw (e : Error).
Arguments Ok {A} a.
Arguments Throw {A} e.

Definition bind {A B} (r : Result A) (k : A -> Result B) : Result B :=
  match r with
  | Ok a => k a
  | Throw e => Throw e
  end.

(** [Array.prototype.findIndex] with a callback that may throw: the
    elements are visited in order up to the first match, [-1] if none. *)
Fixpoint findIndexFrom {A} (p : A -> Result bool) (l : list A) (i : Z)
    : Result Z :=
  match l with
  | [] => Ok (-1)
  | x :: r =>
      bind (p x) (fun b => if b then Ok i else findIndexFrom p r (i + 1))
  end.

Definition findIndex {A} (p : A -> Result bool) (l : list A) : Result Z :=
  findIndexFrom p l 0.

(** The callback [(x) => x.pizza._id === pizza._id]: reading [_id] of
    [undefined] throws. *)
Definition samePizza (pizza : Pizza) (x : CartLine) : Result bool :=
  match line_pizza x with
  | Some p => Ok (bool_decide (_id p = _id pizza))
  | None => Throw TypeError
  end.

(** The updater [addToCart] passes to [setCart]. *)
Definition addToCart (pizza : Pizza) (c : list CartLine)
    : Result (list CartLine) :=
  bind (findIndex (samePizza pizza) c) (fun i =>
    if 0 <=? i then
      match c !! Z.to_nat i with
      | Some x =>
          Ok (<[Z.to_nat i := with_quantity x (add (quantity x) (of_Z 1))]> c)
      | None => Throw TypeError
      end
    else Ok (c ++ [MenuLine pizza (of_Z 1)])).

(** The updater of [addCustomToCart]. *)
Definition addCustomToCart (custom : Selection) (computedPrice : number)
    (c : list CartLine) : list CartLine :=
  c ++ [CustomLine custom computedPrice (of_Z 1)].

(** A menu line of another pizza than [pizza]. *)
Definition menuOther (pizza : Pizza) (x : CartLine) : Prop :=
  exists p q, x = MenuLine p q /\ _id p <> _id pizza.

(** The "Add to cart" button of the builder: disabled unless [canAdd]. *)
Definition clickAddCustom (opts : Options) (sel : Selection) (price : number)
    (c : list CartLine) : list CartLine :=
  if canAdd opts sel then addCustomToCart sel price c else c.

(** ** Rupee conversion and the checkout request of [payNow] *)

(** The build-time environment: a variable is unset (or empty), or holds a
    string that [Number] reads as the given number. *)
Record ImportMetaEnv := {
  VITE_USD_TO_INR : option number;
  VITE_MARKET_ADJ : option number
}.

(** [Number(import.meta.env.VITE_USD_TO_INR || '83')]. *)
Definition USD_TO_INR (env : ImportMetaEnv) : number :=
  match VITE_USD_TO_INR env with
  | Some x => x
  | None => of_Z 83
  end.

(** [Number(import.meta.env.VITE_MARKET_ADJ || '0.20')]. *)
Definition MARKET_ADJ (env : ImportMetaEnv) : number :=
  match VITE_MARKET_ADJ env with
  | Some x => x
  | None => of_decimal 20 2
  end.

(** [adjToINR(usd)]: [Number(usd || 0) * USD_TO_INR * MARKET_ADJ]. *)
Definition adjToINR (env : ImportMetaEnv) (usd : number) : number :=
  mul (mul (or_zero (Some usd)) (USD_TO_INR env)) (MARKET_ADJ env).

Definition inrNumber (env : ImportMetaEnv) (usd : number) : number :=
  adjToINR env usd.

(** [it.pizza ? it.pizza.price : it.price]. *)
Definition lineUnitPrice (it : CartLine) : number :=
  match it with
  | MenuLine p _ => pizza_price p
  | CustomLine _ pr _ => pr
  end.

(** [cartUsdTotal]. *)
Definition cartUsdTotal (c : list CartLine) : number :=
  Js.reduce (fun s it => add s (mul (lineUnitPrice it) (quantity it)))
            c (of_Z 0).

Record Address := {
  addr_name : string; addr_street : string; addr_city : string;
  addr_state : string; addr_zip : string; addr_phone : string
}.

Definition addressLine (a : Address) : string :=
  String.concat ""
    [addr_name a; ", "; addr_street a; ", "; addr_city a; ", ";
     addr_state a; " "; addr_zip a; ". Phone: "; addr_phone a].

Inductive OrderItem :=
  | PizzaItem (pizza : string) (quantity : number)
  | CustomItem (custom : Selection) (quantity : number).

Record CheckoutRequest := {
  req_items : list OrderItem;
  req_address : string;
  req_currency : string;
  req_amount : number
}.

(** The body [payNow] posts through [api.payment.checkout]. *)
Definition checkoutRequest (env : ImportMetaEnv) (addr : Address)
    (c : list CartLine) : CheckoutRequest :=
  let items := map (fun c => match c with
                             | MenuLine p q => PizzaItem (_id p) q
                             | CustomLine cu _ q => CustomItem cu q
                             end) c in
  let cartInrTotal := inrNumber env (cartUsdTotal c) in
  {| req_items := items;
     req_address := addressLine addr;
     req_currency := "INR";
     req_amount := cartInrTotal |}.

(** ** [payNow] *)

Record PayResult := { status : string; orderId : string }.

(** The state of [App] that [payNow] reads and writes. *)
Record AppState := {
  cart : list CartLine;
  addr : Address;
  payResult : PayResult;
  placing : bool;
  sdkReady : bool;
  cashfreeRef : bool            (* whether [cashfreeRef.current] is set *)
}.

(** What the checkout endpoint answers. *)
Record CheckoutInit := {
  orderToken : option string;
  payment_session_id : option string;
  cf_payment_session_id : option string;
  init_orderId : option string;
  init_order_id : option string;
  hostedCheckoutUrl : option string;
  paymentLink : option string
}.

(** An awaited call settles with a value or rejects. *)
Inductive Settled (A : Type) :=
  | Resolved (a : A)
  | Rejected.
Arguments Resolved {A} a.
Arguments Rejected {A}.

(** What the outside answers during one run of [payNow]: the SDK loader,
    the checkout endpoint (its body, if any), the hosted checkout (its
    [result.error], when there is a truthy one) and the verification
    endpoint (its [success] flag; [None] when the answer has none). *)
Record World := {
  w_load : Settled unit;
  w_checkout : Settled (option CheckoutInit);
  w_gateway : Settled (option string);
  w_verify : Settled (option bool)
}.

Inductive Effect :=
  | Alert (msg : string)
  | Redirect (url : string)
  | Post (req : CheckoutRequest)
  | Verify (orderId : string).

(** [a || b] on optional strings. *)
Definition or_else (a b : option string) : option string :=
  match a with
  | Some s => if truthy_str s then a else b
  | None => b
  end.

Definition is_truthy (a : option string) : bool :=
  match a with
  | Some s => truthy_str s
  | None => false
  end.

Definition set_cart (st : AppState) (c : list CartLine) : AppState :=
  {| cart := c; addr := addr st; payResult := payResult st;
     placing := placing st; sdkReady := sdkReady st;
     cashfreeRef := cashfreeRef st |}.

Definition set_payResult (st : AppState) (r : PayResult) : AppState :=
  {| cart := cart st; addr := addr st; payResult := r;
     placing := placing st; sdkReady := sdkReady st;
     cashfreeRef := cashfreeRef st |}.

Definition set_placing (st : AppState) (b : bool) : AppState :=
  {| cart := cart st; addr := addr st; payResult := payResult st;
     placing := b; sdkReady := sdkReady st;
     cashfreeRef := cashfreeRef st |}.

Definition set_sdk (st : AppState) : AppState :=
  {| cart := cart st; addr := addr st; payResult := payResult st;
     placing := placing st; sdkReady := true; cashfreeRef := true |}.

(** The fallback when the session or the SDK is missing. *)
Definition fallback (init : CheckoutInit) (msg : string) : Effect :=
  match or_else (hostedCheckoutUrl init) None with
  | Some u => Redirect u
  | None =>
      match or_else (paymentLink init) None with
      | Some u => Redirect u
      | None => Alert msg
      end
  end.

(** The steps after the hosted checkout has returned [result]. *)
Definition reconcile (w : World) (oid : string) (gatewayError : option string)
    (st : AppState) : AppState * list Effect :=
  match gatewayError with
  | None =>
      match w_verify w with
      | Resolved (Some true) =>
          (set_payResult (set_cart st [])
             {| status := "success"; orderId := oid |}, [Verify oid])
      | Resolved _ =>
          (set_payResult st {| status := "error"; orderId := oid |},
           [Verify oid])
      | Rejected =>
          (set_payResult st {| status := "error"; orderId := oid |},
           [Verify oid])
      end
  | Some _ =>
      (set_payResult st {| status := "error"; orderId := oid |}, [])
  end.

(** How far a run of [payNow] gets before the hosted checkout returns. *)
Inductive Progress :=
  | Stopped (st : AppState) (effs : list Effect)
  | AtGateway (st : AppState) (effs : list Effect) (oid : string).

Definition beforeGateway (env : ImportMetaEnv) (w : World) (st : AppState)
    : Progress :=
  let st1 :=
    if negb (sdkReady st) || negb (cashfreeRef st) then
      match w_load w with
      | Resolved _ => set_sdk st
      | Rejected => st
      end
    else st in
  let req := checkoutRequest env (addr st1) (cart st1) in
  match w_checkout w with
  | Rejected =>
      Stopped st1
        [Post req;
         Alert "Could not start payment. Check console for details."]
  | Resolved None =>
      (* [init.orderId] on a missing answer throws into the outer catch *)
      Stopped st1
        [Post req;
         Alert "Could not start payment. Check console for details."]
  | Resolved (Some init) =>
      let sessionId :=
        or_else (orderToken init)
          (or_else (payment_session_id init) (cf_payment_session_id init)) in
      let oid := or_else (init_orderId init) (init_order_id init) in
      match is_truthy sessionId, oid with
      | true, Some o =>
          if truthy_str o then
            if negb (cashfreeRef st1) then
              Stopped st1 [Post req; fallback init "Payment SDK not available"]
            else AtGateway (set_placing st1 true) [Post req] o
          else
            Stopped st1
              [Post req; fallback init "Missing payment_session_id or order_id"]
      | _, _ =>
          Stopped st1
            [Post req; fallback init "Missing payment_session_id or order_id"]
      end
  end.

(** One run of [payNow]; the [finally] clause resets [placing]. *)
Definition payNow (env : ImportMetaEnv) (w : World) (st : AppState)
    : AppState * list Effect :=
  match beforeGateway env w st with
  | Stopped st1 effs => (set_placing st1 false, effs)
  | AtGateway st1 effs oid =>
      match w_gateway w with
      | Rejected =>
          (set_placing st1 false,
           effs ++ [Alert "Could not start payment. Check console for details."])
      | Resolved gatewayError =>
          let '(st2, effs2) := reconcile w oid gatewayError st1 in
          (set_placing st2 false, effs ++ effs2)
      end
  end.

(** What [PaymentStatus] shows for a status. *)
Record StatusView := {
  view_title : string;
  view_primary : string
}.

Definition PaymentStatus (status : string) : StatusView :=
  let ok := bool_decide (status = "success") in
  {| view_title := if ok then "Payment successful" else "Payment failed";
     view_primary := if ok then "Track my order" else "Try again" |}.

(** ** Loading the catalog into the builder *)

(** The filter callback of the builder: keeps [ch] unless its id or name,
    in lower case, includes "vegan". *)
Definition notVegan (ch : Variant) : bool :=
  let id := toLowerCase (or_str (Some (id ch)) "") in
  let name := toLowerCase (or_str (Some (name ch)) "") in
  negb (includes "vegan" id) && negb (includes "vegan" name).

(** [{ ...raw, cheeses: (raw.cheeses || []).filter(...) }]. *)
Definition loadOptions (raw : Options) : Options :=
  {| bases := bases raw; sauces := sauces raw;
     cheeses := List.filter notVegan (cheeses raw);
     veggies := veggies raw |}.

(** ** The builder's controls *)

Definition levelOptions : list string := ["low"; "normal"; "extra"].

Definition set_base (sel : Selection) (b : string) : Selection :=
  {| sel_base := b; sel_sauce := sel_sauce sel; sel_cheese := sel_cheese sel;
     sel_veggies := sel_veggies sel; density := density sel;
     toppingLevels := toppingLevels sel |}.

Definition set_sauce (sel : Selection) (s : string) : Selection :=
  {| sel_base := sel_base sel; sel_sauce := s; sel_cheese := sel_cheese sel;
     sel_veggies := sel_veggies sel; density := density sel;
     toppingLevels := toppingLevels sel |}.

Definition set_cheese (sel : Selection) (c : string) : Selection :=
  {| sel_base := sel_base sel; sel_sauce := sel_sauce sel; sel_cheese := c;
     sel_veggies := sel_veggies sel; density := density sel;
     toppingLevels := toppingLevels sel |}.

Definition set_density (sel : Selection) (d : Density) : Selection :=
  {| sel_base := sel_base sel; sel_sauce := sel_sauce sel;
     sel_cheese := sel_cheese sel; sel_veggies := sel_veggies sel;
     density := d; toppingLevels := toppingLevels sel |}.

Definition set_veggies (sel : Selection) (vs : list string)
    (lv : gmap string string) : Selection :=
  {| sel_base := sel_base sel; sel_sauce := sel_sauce sel;
     sel_cheese := sel_cheese sel; sel_veggies := vs;
     density := density sel; toppingLevels := lv |}.

(** [toggleVeg(id)]. *)
Definition toggleVeg (opts : Options) (i : string) (s : Selection)
    : Selection :=
  match Js.find (fun v => bool_decide (id v = i)) (veggies opts) with
  | None => s
  | Some item =>
      if disabled item then s
      else if bool_decide (i ∈ sel_veggies s) then
        set_veggies s
          (List.filter (fun x => negb (bool_decide (x = i))) (sel_veggies s))
          (delete i (toppingLevels s))
      else
        set_veggies s (sel_veggies s ++ [i])
          (<[i := "normal"]> (toppingLevels s))
  end.

(** A click on one of the builder's controls: the k-th pill of a category,
    the k-th amount button of a slot, the k-th veggie button, or the j-th
    amount button of the k-th selected veggie. *)
Inductive Click :=
  | ClickBase (k : nat)
  | ClickSauce (k : nat)
  | ClickCheese (k : nat)
  | ClickSauceLevel (k : nat)
  | ClickCheeseLevel (k : nat)
  | ClickVeggie (k : nat)
  | ClickToppingLevel (k j : nat).

Definition pick (arr : list Variant) (k : nat) (sel : Selection)
    (set : Selection -> string -> Selection) : Selection :=
  match arr !! k with
  | Some v => if disabled v then sel else set sel (id v)
  | None => sel
  end.

(** The handlers of the rendered controls. *)
Definition click (opts : Options) (sel : Selection) (c : Click) : Selection :=
  match c with
  | ClickBase k => pick (bases opts) k sel set_base
  | ClickSauce k => pick (sauces opts) k sel set_sauce
  | ClickCheese k => pick (cheeses opts) k sel set_cheese
  | ClickSauceLevel k =>
      match levelOptions !! k with
      | Some v =>
          if findDisabled (sauces opts) (sel_sauce sel)
             || negb (truthy_str (sel_sauce sel))
          then sel
          else set_density sel
                 {| d_sauce := Some v; d_cheese := d_cheese (density sel);
                    d_toppings := d_toppings (density sel) |}
      | None => sel
      end
  | ClickCheeseLevel k =>
      match levelOptions !! k with
      | Some v =>
          if findDisabled (cheeses opts) (sel_cheese sel)
             || negb (truthy_str (sel_cheese sel))
          then sel
          else set_density sel
                 {| d_sauce := d_sauce (density sel); d_cheese := Some v;
                    d_toppings := d_toppings (density sel) |}
      | None => sel
      end
  | ClickVeggie k =>
      match veggies opts !! k with
      | Some v => if disabled v then sel else toggleVeg opts (id v) sel
      | None => sel
      end
  | ClickToppingLevel k j =>
      match sel_veggies sel !! k, levelOptions !! j with
      | Some i, Some opt =>
          set_veggies sel (sel_veggies sel) (<[i := opt]> (toppingLevels sel))
      | _, _ => sel
      end
  end.

(** A session of the builder on a catalog the server sent. *)
Definition session (raw : Options) (clicks : list Click) : Selection :=
  fold_left (click (loadOptions raw)) clicks initialSel.

(** The selected cheese is none or one of the cheeses the builder offers. *)
Definition cheese_offered (opts : Options) (sel : Selection) : Prop :=
  sel_cheese sel = "" \/ exists v, v ∈ cheeses opts /\ sel_cheese sel = id v.

(** ** The admin inventory table *)

Record InventoryRow := {
  row_id : string;
  row_name : string;
  stock : option Z;             (* [None]: missing or not a number *)
  threshold : option Z
}.

(** [Number(x || 0)] on an integer field. *)
Definition number_or_zero (x : option Z) : Z :=
  match x with
  | Some v => if v =? 0 then 0 else v
  | None => 0
  end.

(** The [disabled] flag [CatTable] computes for a row. *)
Definition rowDisabled (r : InventoryRow) : bool :=
  number_or_zero (stock r) <? number_or_zero (threshold r).

(** [/vegan/i.test(s)]: some five consecutive characters of [s] are those
    of "vegan" up to the case of the letters. *)
Definition testVegan (s : string) : bool := includes "vegan" (toLowerCase s).

Record VariantInventory := {
  inv_bases : list InventoryRow;
  inv_sauces : list InventoryRow;
  inv_cheeses : list InventoryRow;
  inv_veggies : list InventoryRow
}.

(** [scrubbed] in [loadVariantInv]. *)
Definition scrubbed (data : VariantInventory) : VariantInventory :=
  {| inv_bases := inv_bases data; inv_sauces := inv_sauces data;
     inv_cheeses :=
       List.filter
         (fun x => negb (testVegan (or_str (Some (row_id x)) ""))
                   && negb (testVegan (or_str (Some (row_name x)) "")))
         (inv_cheeses data);
     inv_veggies := inv_veggies data |}.

(** ** The rules as the specification words them *)

Module Spec.

(** A non-negative currency amount. *)
Definition is_amount (x : number) : bool :=
  match x with
  | S754_zero false | S754_finite false _ _ => true
  | _ => false
  end.

(** What a catalog may carry as a price: a number, that is not NaN, and
    not the negative zero. *)
Definition is_price (x : number) : bool :=
  match x with
  | S754_nan | S754_zero true => false
  | _ => true
  end.

Definition catalog_ok (opts : Options) : Prop :=
  Forall (fun v => is_price (price v) = true)
         (bases opts ++ sauces opts ++ cheeses opts ++ veggies opts).

(** The price of the variant with the given id in a category, [0] when
    the id is not found there. *)
Fixpoint priceOf (arr : list Variant) (i : string) : number :=
  match arr with
  | [] => of_Z 0
  | v :: r => if String.eqb (id v) i then price v else priceOf r i
  end.

(** The level of a veggie: its own override if present, else the global
    toppings density, else "normal". *)
Definition levelOf (sel : Selection) (i : string) : string :=
  default (default "normal" (d_toppings (density sel)))
          (toppingLevels sel !! i).

(** The sum of a list of amounts, in the order of the list. *)
Fixpoint sumFrom (acc : number) (xs : list number) : number :=
  match xs with
  | [] => acc
  | x :: r => sumFrom (add acc x) r
  end.

Definition sum (xs : list number) : number := sumFrom (of_Z 0) xs.

Definition veggieSum (opts : Options) (sel : Selection) : number :=
  sum (map (fun i => mul (priceOf (veggies opts) i)
                         (mult (Some (levelOf sel i))))
           (sel_veggies sel)).

(** [2 + basePrice + saucePrice x mult + cheesePrice x mult + veggies]. *)
Definition unrounded (opts : Options) (sel : Selection) : number :=
  add (add (add (add (of_Z 2) (priceOf (bases opts) (sel_base sel)))
                (mul (priceOf (sauces opts) (sel_sauce sel))
                     (mult (d_sauce (density sel)))))
           (mul (priceOf (cheeses opts) (sel_cheese sel))
                (mult (d_cheese (density sel)))))
      (veggieSum opts sel).

Definition customPrice (opts : Options) (sel : Selection) : number :=
  round2 (unrounded opts sel).

(** [n] is [q] rounded half-up to an integer: the nearest integer, the
    larger one on a tie. *)
Definition half_up (q : Q) (n : Z) : Prop :=
  (inject_Z n <= q + (1 # 2) /\ q + (1 # 2) < inject_Z n + 1)%Q.

(** The first variant of a category with the given id is disabled. *)
Definition isDisabledIn (arr : list Variant) (i : string) : Prop :=
  exists pre v post,
    arr = pre ++ v :: post /\ id v = i /\ disabled v = true /\
    Forall (fun x => id x <> i) pre.

(** A composition is valid when base, sauce and cheese are selected and
    no selected variant is disabled. *)
Definition valid (opts : Options) (sel : Selection) : Prop :=
  sel_base sel <> "" /\ sel_sauce sel <> "" /\ sel_cheese sel <> "" /\
  ~ isDisabledIn (bases opts) (sel_base sel) /\
  ~ isDisabledIn (sauces opts) (sel_sauce sel) /\
  ~ isDisabledIn (cheeses opts) (sel_cheese sel) /\
  Forall (fun i => ~ isDisabledIn (veggies opts) i) (sel_veggies sel).

(** [s] contains [w] as a substring up to the case of its letters. *)
Definition contains_ci (w s : string) : Prop :=
  exists pre mid post,
    s = String.append pre (String.append mid post) /\ toLowerCase mid = w.

Definition isVegan (v : Variant) : Prop :=
  contains_ci "vegan" (id v) \/ contains_ci "vegan" (name v).

(** Lines of a cart hold amounts and positive finite quantities. *)
Definition line_ok (it : CartLine) : Prop :=
  is_amount (lineUnitPrice it) = true /\
  exists m e, quantity it = S754_finite false m e.

(** The cart total in the base currency: the sum of unit price times
    quantity over the lines. *)
Definition cartTotal (c : list CartLine) : number :=
  sum (map (fun it => mul (lineUnitPrice it) (quantity it)) c).

(** The density settings a composition carries are among low, normal and
    extra. *)
Definition composition_ok (sel : Selection) : Prop :=
  (forall l, d_sauce (density sel) = Some l -> l ∈ levelOptions) /\
  (forall l, d_cheese (density sel) = Some l -> l ∈ levelOptions) /\
  (forall l, d_toppings (density sel) = Some l -> l ∈ levelOptions) /\
  (forall i l, toppingLevels sel !! i = Some l -> l ∈ levelOptions).

End Spec.

(** ** The authoritative evaluation *)

Module Server.

(** Modelled from the spec: the order route that prices a composition at
    order creation is not among the sources; this is the density
    multiplier of section 4.3, step 2: low or light gives 1, extra gives
    3, anything else 2. *)
Definition mult (level : option string) : number :=
  match level with
  | Some "low" | Some "light" => of_Z 1
  | Some "extra" => of_Z 3
  | _ => of_Z 2
  end.

(** Modelled from the spec: the order route is not among the sources;
    section 4.3, step 1: the price of a selected id, 0 if unmatched. *)
Fixpoint lookup (category : list Variant) (i : string) : number :=
  match category with
  | [] => of_Z 0
  | v :: rest => if String.eqb i (id v) then price v else lookup rest i
  end.

(** Modelled from the spec: the order route is not among the sources;
    section 4.3, step 5: each selected veggie contributes its price times
    the multiplier of its own override, else of the global topping
    density, else of normal; the contributions are summed. *)
Fixpoint veggieTotal (catalog : Options) (c : Selection)
    (ids : list string) (acc : number) : number :=
  match ids with
  | [] => acc
  | i :: rest =>
      let level :=
        match toppingLevels c !! i with
        | Some l => Some l
        | None =>
            match d_toppings (density c) with
            | Some l => Some l
            | None => Some "normal"
            end
        end in
      veggieTotal catalog c rest
        (add acc (mul (lookup (veggies catalog) i) (mult level)))
  end.

(** Modelled from the spec: the order route is not among the sources;
    section 4.3, steps 3 to 7: the build fee 2, the base price, the sauce
    and cheese contributions and the veggie total, rounded half-up to 2
    decimal places ([round2] is that rounding on binary64 numbers). *)
Definition price (catalog : Options) (c : Selection) : number :=
  let basePrice := lookup (bases catalog) (sel_base c) in
  let sauceContribution :=
    mul (lookup (sauces catalog) (sel_sauce c)) (mult (d_sauce (density c))) in
  let cheeseContribution :=
    mul (lookup (cheeses catalog) (sel_cheese c))
        (mult (d_cheese (density c))) in
  let total :=
    add (add (add (add (of_Z 2) basePrice) sauceContribution)
             cheeseContribution)
        (veggieTotal catalog c (sel_veggies c) (of_Z 0)) in
  round2 total.

End Server.

(** ** Sample data *)

Module Sample.

Definition variant (i : string) (p : Z) (off : bool) : Variant :=
  {| id := i; name := i; price := of_Z p; disabled := off |}.

(** The catalog of the worked example: base 100, sauce 20, cheese 30. *)
Definition opts : Options :=
  {| bases := [variant "thinCrust" 100 false; variant "cheeseBurst" 150 true];
     sauces := [variant "tomato" 20 false];
     cheeses := [variant "mozzarella" 30 false;
                 variant "Vegan-Cheddar" 35 false];
     veggies := [variant "capsicum" 10 false; variant "sweetCorn" 15 true] |}.

Definition sel : Selection :=
  {| sel_base := "thinCrust"; sel_sauce := "tomato";
     sel_cheese := "mozzarella"; sel_veggies := [];
     density := {| d_sauce := Some "normal"; d_cheese := Some "normal";
                   d_toppings := Some "normal" |};
     toppingLevels := ∅ |}.

Definition selExtra : Selection :=
  set_veggies sel ["capsicum"] {[ "capsicum" := "extra" ]}.

(** A catalog with one base of the given price, and that base chosen. *)
Definition onlyBase (p : number) : Options :=
  {| bases := [{| id := "b"; name := "B"; price := p; disabled := false |}];
     sauces := []; cheeses := []; veggies := [] |}.

Definition selBase : Selection := set_base initialSel "b".

Definition margherita : Pizza :=
  {| _id := "p1"; pizza_name := "Margherita"; pizza_price := of_Z 8 |}.

Definition env : ImportMetaEnv :=
  {| VITE_USD_TO_INR := None; VITE_MARKET_ADJ := None |}.

Definition address : Address :=
  {| addr_name := "Asha"; addr_street := "12 MG Road";
     addr_city := "Bengaluru"; addr_state := "KA"; addr_zip := "560001";
     addr_phone := "9876543210" |}.

Definition lines : list CartLine :=
  [MenuLine margherita (of_Z 2); CustomLine sel (of_Z 202) (of_Z 1)].

Definition state : AppState :=
  {| cart := lines; addr := address;
     payResult := {| status := "idle"; orderId := "" |};
     placing := false; sdkReady := true; cashfreeRef := true |}.

Definition init : CheckoutInit :=
  {| orderToken := None; payment_session_id := Some "session_1";
     cf_payment_session_id := None; init_orderId := Some "order_1";
     init_order_id := None; hostedCheckoutUrl := None;
     paymentLink := None |}.

(** The checkout and the gateway go through; [v] is what the
    verification call does. *)
Definition world (v : Settled (option bool)) : World :=
  {| w_load := Resolved (); w_checkout := Resolved (Some init);
     w_gateway := Resolved None; w_verify := v |}.

Definition row (s t : Z) : InventoryRow :=
  {| row_id := "tomato"; row_name := "Tomato";
     stock := Some s; threshold := Some t |}.

End Sample.

(** ** More of the cart: the steppers and the remove button *)

(** [x > y] and [x - y] on numbers. *)
Definition num_gt (x y : number) : bool := SFltb y x.
Definition num_sub : number -> number -> number := SFsub prec emax.

(** [Array.prototype.map], [flatMap] and [filter] with the index passed to
    the callback; [i] is the index of the first element. *)
Fixpoint mapFrom {A B} (f : A -> nat -> B) (l : list A) (i : nat) : list B :=
  match l with
  | [] => []
  | x :: r => f x i :: mapFrom f r (S i)
  end.

Fixpoint flatMapFrom {A B} (f : A -> nat -> list B) (l : list A) (i : nat)
    : list B :=
  match l with
  | [] => []
  | x :: r => f x i ++ flatMapFrom f r (S i)
  end.

Fixpoint filterFrom {A} (p : A -> nat -> bool) (l : list A) (i : nat)
    : list A :=
  match l with
  | [] => []
  | x :: r => if p x i then x :: filterFrom p r (S i) else filterFrom p r (S i)
  end.

(** The updater of [incItem(idx)]. *)
Definition incItem (idx : nat) (c : list CartLine) : list CartLine :=
  mapFrom (fun it i =>
             if bool_decide (i = idx)
             then with_quantity it (add (quantity it) (of_Z 1)) else it) c 0.

(** The updater of [decItem(idx)]. *)
Definition decItem (idx : nat) (c : list CartLine) : list CartLine :=
  flatMapFrom (fun it i =>
                 if bool_decide (i = idx)
                 then (if num_gt (quantity it) (of_Z 1)
                       then [with_quantity it (num_sub (quantity it) (of_Z 1))]
                       else [])
                 else [it]) c 0.

(** The updater of [removeItem(idx)]. *)
Definition removeItem (idx : nat) (c : list CartLine) : list CartLine :=
  filterFrom (fun _ i => negb (bool_decide (i = idx))) c 0.


(** ** What the builder keeps through its clicks *)

(** The selection after a run of clicks on the controls rendered from
    [opts]. *)
Definition builderRun (opts : Options) (clicks : list Click) : Selection :=
  fold_left (click opts) clicks initialSel.

(** A slot is empty or holds the id of a variant offered as enabled. *)
Definition slot_ok (arr : list Variant) (s : string) : Prop :=
  s = "" \/ exists v, v ∈ arr /\ disabled v = false /\ s = id v.

Record sessionInv (opts : Options) (sel : Selection) : Prop := {
  keeps_nodup : NoDup (sel_veggies sel);
  keeps_levels :
    forall i, i ∈ sel_veggies sel <-> is_Some (toppingLevels sel !! i);
  keeps_levelOptions :
    forall i l, toppingLevels sel !! i = Some l -> l ∈ levelOptions;
  keeps_density :
    exists ls lc,
      density sel = {| d_sauce := Some ls; d_cheese := Some lc;
                       d_toppings := Some "normal" |} /\
      ls ∈ levelOptions /\ lc ∈ levelOptions;
  keeps_veggies :
    Forall (fun i => exists v,
                Js.find (fun x => bool_decide (id x = i)) (veggies opts) = Some v
                /\ disabled v = false) (sel_veggies sel);
  keeps_base : slot_ok (bases opts) (sel_base sel);
  keeps_sauce : slot_ok (sauces opts) (sel_sauce sel);
  keeps_cheese : slot_ok (cheeses opts) (sel_cheese sel)
}.

(** The ids of a category are pairwise different. *)
Definition unique_ids (arr : list Variant) : Prop := NoDup (map id arr).


(** ** Catalogs and factors of non-negative amounts *)

(** Every price of the catalog is a non-negative finite amount. *)
Definition catalog_amounts (opts : Options) : Prop :=
  Forall (fun v => Spec.is_amount (price v) = true)
         (bases opts ++ sauces opts ++ cheeses opts ++ veggies opts).

(** A positive finite number. *)
Definition is_positive (x : number) : Prop :=
  exists m e, x = S754_finite false m e.


(** ** The pay-callback page *)

(** The state [PayCallback] ends in: [order_id] is the query parameter and
    [verify] what the verification call does; reading [success] of a
    missing answer throws, which the [catch] turns into an error too. *)
Definition payCallback (order_id : option string)
    (verify : Settled (option bool)) : PayResult :=
  let orderId := or_str order_id "" in
  if negb (truthy_str orderId) then {| status := "error"; orderId := "" |}
  else
    match verify with
    | Resolved (Some true) => {| status := "success"; orderId := orderId |}
    | Resolved _ => {| status := "error"; orderId := orderId |}
    | Rejected => {| status := "error"; orderId := orderId |}
    end.

(** Where closing the result on that page navigates to. *)
Definition payCallbackClose (state : PayResult) : string :=
  if bool_decide (status state = "success") then "/orders" else "/menu".

(** The session id [payNow] reads off the checkout answer, and the order
    id. *)
Definition sessionIdOf (init : CheckoutInit) : option string :=
  or_else (orderToken init)
    (or_else (payment_session_id init) (cf_payment_session_id init)).

Definition orderIdOf (init : CheckoutInit) : option string :=
  or_else (init_orderId init) (init_order_id init).


(** ** The carousel of [PopularTriptych] *)

(** Slide counts and indices are small integers, modelled by [Z]; [%] is
    the remainder that takes the sign of the dividend. *)

(** The interval callback [v => (v + 1) % imgs.length]; no interval is set
    while there is at most one image. *)
Definition carouselTick (n v : Z) : Z :=
  if n <=? 1 then v else Z.rem (v + 1) n.

(** [pos(k)]: 0 for the centre, 1 for the right, -1 for the left, 9 for a
    slide that is not rendered. *)
Definition carouselPos (n idx k : Z) : Z :=
  let rel := Z.rem (k - idx + n) n in
  if rel =? 0 then 0
  else if rel =? 1 then 1
  else if rel =? n - 1 then -1
  else 9.


(** ** Strings: [trim] and [split] *)

(** In the strings that are trimmed, split or matched against a pattern a
    character stands for one code unit below 256. *)

(** White space and line terminators among these code units: tab, line
    feed, vertical tab, form feed, carriage return, space and no-break
    space. *)
Definition is_space (c : Ascii.ascii) : bool :=
  let n := Ascii.N_of_ascii c in
  ((9 <=? n)%N && (n <=? 13)%N) || (n =? 32)%N || (n =? 160)%N.

Fixpoint trimStart (s : string) : string :=
  match s with
  | EmptyString => EmptyString
  | String c r => if is_space c then trimStart r else s
  end.

Fixpoint trimEnd (s : string) : string :=
  match s with
  | EmptyString => EmptyString
  | String c r =>
      match trimEnd r with
      | EmptyString => if is_space c then EmptyString else String c EmptyString
      | r' => String c r'
      end
  end.

(** [String.prototype.trim]. *)
Definition trim (s : string) : string := trimEnd (trimStart s).

Definition is_comma (c : Ascii.ascii) : bool :=
  (Ascii.N_of_ascii c =? 44)%N.

(** [s.split(',')]: the pieces between the commas, one piece for a string
    without comma, the empty string included. *)
Fixpoint splitComma (s : string) : list string :=
  match s with
  | EmptyString => [EmptyString]
  | String c r =>
      if is_comma c then EmptyString :: splitComma r
      else match splitComma r with
           | p :: ps => String c p :: ps
           | [] => [String c EmptyString]
           end
  end.

(** No comma in the string. *)
Fixpoint comma_free (s : string) : Prop :=
  match s with
  | EmptyString => True
  | String c r => is_comma c = false /\ comma_free r
  end.

(** ** The server's middleware ([server/src/server.js]) *)

(** [allowedOrigins], from [process.env.CLIENT_ORIGIN]. *)
Definition allowedOrigins (CLIENT_ORIGIN : option string) : list string :=
  map trim
    (splitComma
       (or_str CLIENT_ORIGIN "http://localhost:5173,http://127.0.0.1:5173")).

Inductive CorsDecision :=
  | CorsAllow
  | CorsError (msg : string).

(** The [origin] callback given to [cors]: [origin] is the request's
    Origin header, if any. *)
Definition corsOrigin (NODE_ENV : option string) (allowed : list string)
    (origin : option string) : CorsDecision :=
  if negb (is_truthy origin) then CorsAllow
  else if negb (bool_decide (NODE_ENV = Some "production")) then CorsAllow
  else if bool_decide (Exists (fun a => Some a = origin) allowed)
       then CorsAllow
       else CorsError "Not allowed by CORS".

(** An error as the global handler reads it: its [name], [statusCode] and
    [message], each of which may be missing. *)
Record JsError := {
  err_name : option string;
  err_statusCode : option Z;
  err_message : option string
}.

Record ErrorResponse := {
  res_status : Z;
  res_message : string;
  res_logged : bool
}.

(** The global error handler. *)
Definition errorHandler (err : JsError) : ErrorResponse :=
  let isValidation := bool_decide (err_name err = Some "ValidationError") in
  let code :=
    if isValidation then 400
    else match err_statusCode err with
         | Some c => if c =? 0 then 500 else c
         | None => 500
         end in
  {| res_status := code;
     res_message :=
       or_str (err_message err)
              (if isValidation then "Validation error" else "Server error");
     res_logged := 500 <=? code |}.


(** ** Editing and saving the variant inventory *)

(** The [keyName] of a [CatTable]. *)
Inductive KeyName := KeyBases | KeySauces | KeyCheeses | KeyVeggies.

#[global] Instance KeyName_eq_dec : EqDecision KeyName.
Proof. solve_decision. Defined.

(** [vEdit?.[keyName] || []]. *)
Definition rowsOf (keyName : KeyName) (inv : VariantInventory)
    : list InventoryRow :=
  match keyName with
  | KeyBases => inv_bases inv
  | KeySauces => inv_sauces inv
  | KeyCheeses => inv_cheeses inv
  | KeyVeggies => inv_veggies inv
  end.

(** [{ ...prev, [keyName]: arr }]. *)
Definition setRows (keyName : KeyName) (arr : list InventoryRow)
    (prev : VariantInventory) : VariantInventory :=
  match keyName with
  | KeyBases =>
      {| inv_bases := arr; inv_sauces := inv_sauces prev;
         inv_cheeses := inv_cheeses prev; inv_veggies := inv_veggies prev |}
  | KeySauces =>
      {| inv_bases := inv_bases prev; inv_sauces := arr;
         inv_cheeses := inv_cheeses prev; inv_veggies := inv_veggies prev |}
  | KeyCheeses =>
      {| inv_bases := inv_bases prev; inv_sauces := inv_sauces prev;
         inv_cheeses := arr; inv_veggies := inv_veggies prev |}
  | KeyVeggies =>
      {| inv_bases := inv_bases prev; inv_sauces := inv_sauces prev;
         inv_cheeses := inv_cheeses prev; inv_veggies := arr |}
  end.

(** A change in one of the two inputs of the i-th row of a table; [v] is
    [Number(e.target.value)].  Only the rows that are rendered have
    inputs: an edit of a row that is not there changes nothing. *)
Inductive TableEdit :=
  | EditStock (keyName : KeyName) (i : nat) (v : option Z)
  | EditThreshold (keyName : KeyName) (i : nat) (v : option Z).

(** The [onChange] handlers of [CatTable]. *)
Definition tableEdit (vEdit : VariantInventory) (e : TableEdit)
    : VariantInventory :=
  match e with
  | EditStock keyName i v =>
      let rows := rowsOf keyName vEdit in
      match rows !! i with
      | Some r =>
          let v' := {| row_id := row_id r; row_name := row_name r;
                       stock := v; threshold := threshold r |} in
          setRows keyName (<[i := v']> rows) vEdit
      | None => vEdit
      end
  | EditThreshold keyName i v =>
      let rows := rowsOf keyName vEdit in
      match rows !! i with
      | Some r =>
          let v' := {| row_id := row_id r; row_name := row_name r;
                       stock := stock r; threshold := v |} in
          setRows keyName (<[i := v']> rows) vEdit
      | None => vEdit
      end
  end.

(** One entry of the body [saveVariantInv] sends. *)
Record SavedRow := {
  saved_id : string;
  saved_stock : Z;
  saved_threshold : Z
}.

Record SavedInventory := {
  saved_bases : list SavedRow;
  saved_sauces : list SavedRow;
  saved_cheeses : list SavedRow;
  saved_veggies : list SavedRow
}.

(** [x => ({ id: x.id, stock: Number(x.stock||0),
    threshold: Number(x.threshold||0) })]. *)
Definition toSaved (x : InventoryRow) : SavedRow :=
  {| saved_id := row_id x;
     saved_stock := number_or_zero (stock x);
     saved_threshold := number_or_zero (threshold x) |}.

(** The body [saveVariantInv] sends for the table state [vEdit]. *)
Definition savePayload (vEdit : VariantInventory) : SavedInventory :=
  {| saved_bases := map toSaved (inv_bases vEdit);
     saved_sauces := map toSaved (inv_sauces vEdit);
     saved_cheeses := map toSaved (inv_cheeses vEdit);
     saved_veggies := map toSaved (inv_veggies vEdit) |}.

(** The table state after [loadVariantInv] has received [data] and the
    admin has made the given edits. *)
Definition editedInventory (data : VariantInventory) (edits : list TableEdit)
    : VariantInventory :=
  fold_left tableEdit edits (scrubbed data).

(** The ids and names of the rows of a table. *)
Definition rowKeys (rows : list InventoryRow) : list (string * string) :=
  map (fun r => (row_id r, row_name r)) rows.


(** ** The address form of the checkout *)

Definition code_in (lo hi : N) (c : Ascii.ascii) : bool :=
  let n := Ascii.N_of_ascii c in (lo <=? n)%N && (n <=? hi)%N.

(** [[0-9]], which is also [\d]. *)
Definition is_digit (c : Ascii.ascii) : bool := code_in 48 57 c.

Fixpoint all_digits (s : string) : bool :=
  match s with
  | EmptyString => true
  | String c r => is_digit c && all_digits r
  end.

(** [/^[1-9][0-9]{5}$/.test(s)]. *)
Definition testZip (s : string) : bool :=
  match s with
  | String c r => code_in 49 57 c && (String.length r =? 5)%nat && all_digits r
  | EmptyString => false
  end.

(** [/^[6-9]\d{9}$/.test(s)]. *)
Definition testPhone (s : string) : bool :=
  match s with
  | String c r => code_in 54 57 c && (String.length r =? 9)%nat && all_digits r
  | EmptyString => false
  end.

(** The [validators] of the address fields. *)
Definition validName (v : string) : bool := (2 <=? String.length (trim v))%nat.
Definition validStreet (v : string) : bool := (5 <=? String.length (trim v))%nat.
Definition validCity (v : string) : bool := (2 <=? String.length (trim v))%nat.
Definition validState (v : string) : bool := (2 <=? String.length (trim v))%nat.
Definition validZip (v : string) : bool := testZip (trim v).
Definition validPhone (v : string) : bool := testPhone (trim v).

Definition isAddressValid (a : Address) : bool :=
  validName (addr_name a) && validStreet (addr_street a) &&
  validCity (addr_city a) && validState (addr_state a) &&
  validZip (addr_zip a) && validPhone (addr_phone a).

(** The number a string of decimal digits writes. *)
Fixpoint digitsValueFrom (acc : Z) (s : string) : Z :=
  match s with
  | EmptyString => acc
  | String c r =>
      digitsValueFrom (10 * acc + (Z.of_N (Ascii.N_of_ascii c) - 48)) r
  end.

Definition digitsValue (s : string) : Z := digitsValueFrom 0 s.

(** The address with every field trimmed. *)
Definition trimAddress (a : Address) : Address :=
  {| addr_name := trim (addr_name a); addr_street := trim (addr_street a);
     addr_city := trim (addr_city a); addr_state := trim (addr_state a);
     addr_zip := trim (addr_zip a); addr_phone := trim (addr_phone a) |}.


(** What the submit handler of the address form does: with an address
    that is not accepted it only marks every field as touched; otherwise it
    runs [payNow]. *)
Inductive Submitted :=
  | MarkedTouched
  | Paid (st : AppState) (effs : list Effect).

Definition submitAddress (env : ImportMetaEnv) (w : World) (st : AppState)
    : Submitted :=
  if negb (isAddressValid (addr st)) then MarkedTouched
  else let '(st', effs) := payNow env w st in Paid st' effs.

Definition is_post (e : Effect) : bool :=
  match e with
  | Post _ => true
  | _ => false
  end.

(** ** More sample data *)

Module Demo.

Definition clicks : list Click :=
  [ClickBase 0; ClickSauce 0; ClickCheese 0; ClickVeggie 0].

Definition capsicum : Variant := Sample.variant "capsicum" 10 false.

(** A checkout answer without session id, with a hosted checkout URL. *)
Definition initNoSession : CheckoutInit :=
  {| orderToken := None; payment_session_id := None;
     cf_payment_session_id := None; init_orderId := Some "order_2";
     init_order_id := None;
     hostedCheckoutUrl := Some "https://pay.example/checkout";
     paymentLink := Some "https://pay.example/link" |}.

Definition worldNoSession : World :=
  {| w_load := Resolved (); w_checkout := Resolved (Some initNoSession);
     w_gateway := Resolved None; w_verify := Rejected |}.

Definition origins : list string :=
  ["https://pizza.example"; "https://admin.pizza.example"].

End Demo.

(** * Properties *)

(** ** Strings *)

Lemma toLowerCase_app (a b : string) :
  toLowerCase (String.append a b)
  = String.append (toLowerCase a) (toLowerCase b).
Proof.
  induction a as [|c a IH]; simpl; [reflexivity|].
  by rewrite IH.
Qed.

Lemma toLowerCase_split (s x y : string) :
  toLowerCase s = String.append x y ->
  exists a b, s = String.append a b /\ toLowerCase a = x /\ toLowerCase b = y.
Proof.
  revert s. induction x as [|c x IH]; intros s H.
  - exists EmptyString, s. by simpl in *.
  - destruct s as [|c' s]; simpl in H; [discriminate|].
    injection H as Hc Hs.
    destruct (IH s Hs) as (a & b & -> & Ha & Hb).
    exists (String c' a), b. simpl. by rewrite Hc, Ha, Hb.
Qed.

Lemma prefix_true_iff (w s : string) :
  String.prefix w s = true <-> exists post, s = String.append w post.
Proof.
  revert s. induction w as [|c w IH]; intros s.
  - destruct s; simpl; split; eauto.
  - destruct s as [|c' s]; simpl.
    + split; [discriminate|]. by intros [post H].
    + destruct (Ascii.ascii_dec c c') as [->|Hne].
      * rewrite IH. split.
        -- intros [post ->]. by exists post.
        -- intros [post H]. injection H as ->. by exists post.
      * split; [discriminate|]. intros [post H]. by injection H as ->.
Qed.

Lemma includes_unfold (w s : string) :
  includes w s
  = String.prefix w s
    || match s with EmptyString => false | String _ r => includes w r end.
Proof. by destruct s. Qed.

Lemma includes_true_iff (w s : string) :
  includes w s = true
  <-> exists pre post, s = String.append pre (String.append w post).
Proof.
  induction s as [|c s IH]; rewrite includes_unfold, orb_true_iff.
  - rewrite prefix_true_iff. split.
    + intros [[post H]|?]; [|done]. by exists EmptyString, post.
    + intros (pre & post & H). left.
      destruct pre; simpl in H; [eauto|discriminate].
  - rewrite IH, prefix_true_iff. split.
    + intros [[post H]|(pre & post & ->)].
      * by exists EmptyString, post.
      * by exists (String c pre), post.
    + intros (pre & post & H). destruct pre as [|c' pre]; simpl in H.
      * left. eauto.
      * right. injection H as _ ->. eauto.
Qed.

(** [includes] on the lower-cased string decides containment up to case. *)
Lemma includes_lower_iff (w s : string) :
  includes w (toLowerCase s) = true <-> Spec.contains_ci w s.
Proof.
  rewrite includes_true_iff. unfold Spec.contains_ci. split.
  - intros (pre & post & H).
    apply toLowerCase_split in H as (a & bc & -> & Ha & Hbc).
    apply toLowerCase_split in Hbc as (b & c & -> & Hb & Hc).
    by exists a, b, c.
  - intros (pre & mid & post & -> & <-).
    exists (toLowerCase pre), (toLowerCase post).
    by rewrite !toLowerCase_app.
Qed.

(** ** Array search *)

Lemma find_nil {A} (p : A -> bool) : Js.find p [] = None.
Proof. reflexivity. Qed.

Lemma find_cons {A} (p : A -> bool) (x : A) (l : list A) :
  Js.find p (x :: l) = if p x then Some x else Js.find p l.
Proof.
  unfold Js.find. cbn [list_find]. destruct (p x) eqn:Hp.
  - rewrite decide_True by done. reflexivity.
  - rewrite decide_False by done.
    destruct (list_find _ l) as [[n y]|]; reflexivity.
Qed.

Lemma find_Some_split {A} (p : A -> bool) (l : list A) (v : A) :
  Js.find p l = Some v <->
  exists pre post, l = pre ++ v :: post /\ p v = true /\
                   Forall (fun x => p x = false) pre.
Proof.
  induction l as [|x l IH].
  - rewrite find_nil. split; [discriminate|].
    intros (pre & post & H & _). by destruct pre.
  - rewrite find_cons. destruct (p x) eqn:Hp.
    + split.
      * intros [= <-]. exists [], l. by rewrite Hp.
      * intros (pre & post & H & Hv & Hpre). destruct pre as [|y pre].
        -- by injection H as ->.
        -- injection H as -> _. apply Forall_cons in Hpre as [Hy _]. congruence.
    + rewrite IH. split.
      * intros (pre & post & -> & Hv & Hpre).
        exists (x :: pre), post. by repeat split; [|constructor].
      * intros (pre & post & H & Hv & Hpre). destruct pre as [|y pre].
        -- injection H as -> _. congruence.
        -- injection H as _ ->. apply Forall_cons in Hpre as [_ Hpre]. eauto.
Qed.

Lemma find_None_Forall {A} (p : A -> bool) (l : list A) :
  Js.find p l = None <-> Forall (fun x => p x = false) l.
Proof.
  induction l as [|x l IH].
  - by rewrite find_nil.
  - rewrite find_cons, Forall_cons. destruct (p x); [|by rewrite IH; intuition].
    split; [discriminate|]. by intros [? _].
Qed.

Lemma find_elem_of {A} (p : A -> bool) (l : list A) (v : A) :
  Js.find p l = Some v -> v ∈ l /\ p v = true.
Proof.
  rewrite find_Some_split. intros (pre & post & -> & Hv & _).
  split; [|done]. apply elem_of_app. right. by left.
Qed.

(** ** The price lookup *)

Lemma or_zero_price (p : number) :
  Spec.is_price p = true -> or_zero (Some p) = p.
Proof. by destruct p as [[]|[]| |[] ? ?]. Qed.

Lemma findPrice_priceOf (arr : list Variant) (i : string) :
  Forall (fun v => Spec.is_price (price v) = true) arr ->
  findPrice arr i = Spec.priceOf arr i.
Proof.
  unfold findPrice. induction 1 as [|v arr Hv _ IH]; [reflexivity|].
  rewrite find_cons. cbn [Spec.priceOf].
  destruct (String.eqb_spec (id v) i) as [Heq|Hne].
  - rewrite bool_decide_eq_true_2 by done. by apply or_zero_price.
  - rewrite bool_decide_eq_false_2 by done. exact IH.
Qed.

Lemma veggieLevel_levelOf (sel : Selection) (i : string) :
  veggieLevel sel i = Spec.levelOf sel i.
Proof.
  unfold veggieLevel, Spec.levelOf.
  destruct (toppingLevels sel !! i); [reflexivity|].
  by destruct (d_toppings (density sel)).
Qed.

Lemma reduce_sumFrom {A} (f : A -> number) (l : list A) (acc : number) :
  Js.reduce (fun s x => add s (f x)) l acc = Spec.sumFrom acc (map f l).
Proof.
  unfold Js.reduce. revert acc.
  induction l as [|x l IH]; intros acc; simpl; [reflexivity|apply IH].
Qed.

Lemma catalog_ok_parts (opts : Options) :
  Spec.catalog_ok opts ->
  Forall (fun v => Spec.is_price (price v) = true) (bases opts) /\
  Forall (fun v => Spec.is_price (price v) = true) (sauces opts) /\
  Forall (fun v => Spec.is_price (price v) = true) (cheeses opts) /\
  Forall (fun v => Spec.is_price (price v) = true) (veggies opts).
Proof.
  unfold Spec.catalog_ok. rewrite !Forall_app. tauto.
Qed.

Lemma vegTotal_veggieSum (opts : Options) (sel : Selection) :
  Forall (fun v => Spec.is_price (price v) = true) (veggies opts) ->
  vegTotal opts sel = Spec.veggieSum opts sel.
Proof.
  intros Hv. unfold vegTotal, Spec.veggieSum, Spec.sum.
  rewrite <- reduce_sumFrom. unfold Js.reduce.
  generalize (of_Z 0). induction (sel_veggies sel) as [|i l IH]; intros acc.
  - reflexivity.
  - simpl. rewrite IH. do 2 f_equal.
    by rewrite findPrice_priceOf, veggieLevel_levelOf.
Qed.

Lemma customTotal_unrounded (opts : Options) (sel : Selection) :
  Spec.catalog_ok opts -> customTotal opts sel = Spec.unrounded opts sel.
Proof.
  intros (Hb & Hs & Hc & Hv)%catalog_ok_parts.
  unfold customTotal, Spec.unrounded.
  by rewrite !findPrice_priceOf, vegTotal_veggieSum.
Qed.

(** ** The custom-pizza price *)

Example price_worked_example :
  customPrice Sample.opts Sample.sel = of_Z (2 + 100 + 20 * 2 + 30 * 2).
Proof. vm_compute. reflexivity. Qed.

Example price_extra_veggie :
  customPrice Sample.opts Sample.selExtra = of_Z (202 + 10 * 3).
Proof. vm_compute. reflexivity. Qed.

(** C1: on a catalog whose prices are numbers, the price the builder's
    effect sets is [round2] of 2 plus the base price, plus the sauce and
    cheese prices times their multipliers, plus the sum over the selected
    veggies of price times the multiplier of the veggie's level; an id
    absent from its category counts 0, and a veggie's level is its own
    override, else the global toppings density, else "normal". *)
Theorem customPrice_formula (opts : Options) (sel : Selection) (prev : number) :
  Spec.catalog_ok opts ->
  priceEffect (Some opts) sel prev = Spec.customPrice opts sel.
Proof.
  intros Hok. unfold priceEffect, customPrice, Spec.customPrice.
  by rewrite customTotal_unrounded.
Qed.

Lemma customPrice_formula_witness :
  Spec.catalog_ok Sample.opts /\
  priceEffect (Some Sample.opts) Sample.selExtra (of_Z 0)
  = Spec.customPrice Sample.opts Sample.selExtra.
Proof.
  assert (H : Spec.catalog_ok Sample.opts)
    by (unfold Spec.catalog_ok; simpl; repeat constructor).
  split; [exact H|].
  exact (customPrice_formula Sample.opts Sample.selExtra (of_Z 0) H).
Defined.

(** ** The density multiplier *)

Lemma literals_distinct :
  of_Z 1 <> of_Z 2 /\ of_Z 1 <> of_Z 3 /\ of_Z 2 <> of_Z 3.
Proof. by vm_compute. Qed.

Lemma norm_Some (s : string) :
  norm (Some s) = if bool_decide (s = "") then "normal" else toLowerCase s.
Proof. unfold norm, or_str, truthy_str. by case_bool_decide. Qed.

(** C2: [mult] is defined on every input; it is 1 for "low" and "light", 3
    for "extra" and 2 for "normal" and for a missing input, and on any
    string it is 1 exactly when the lower-cased string is "low" or "light",
    3 exactly when it is "extra", and 2 otherwise. *)
Theorem mult_table (s : string) :
  (mult (Some "low") = of_Z 1 /\ mult (Some "light") = of_Z 1 /\
   mult (Some "extra") = of_Z 3 /\ mult (Some "normal") = of_Z 2 /\
   mult None = of_Z 2) /\
  (mult (Some s) = of_Z 1 \/ mult (Some s) = of_Z 3 \/ mult (Some s) = of_Z 2) /\
  (mult (Some s) = of_Z 1
   <-> toLowerCase s = "low" \/ toLowerCase s = "light") /\
  (mult (Some s) = of_Z 3 <-> toLowerCase s = "extra") /\
  (mult (Some s) = of_Z 2
   <-> toLowerCase s <> "low" /\ toLowerCase s <> "light" /\
       toLowerCase s <> "extra").
Proof.
  destruct literals_distinct as (H12 & H13 & H23).
  split; [by vm_compute|].
  destruct (decide (s = "")) as [->|Hs].
  - change (mult (Some "")) with (of_Z 2). change (toLowerCase "") with "".
    intuition (try congruence); discriminate.
  - unfold mult. rewrite norm_Some, (bool_decide_eq_false_2 (s = "")) by done.
    repeat case_bool_decide; cbn [orb]; intuition congruence.
Qed.

(** ** The availability badge *)

(** C4: a row whose stock and threshold are the integers [s] and [t], in
    particular non-negative ones, is shown disabled exactly when [s < t];
    at [s = t] it is not disabled. *)
Theorem rowDisabled_iff (r : InventoryRow) (s t : Z) :
  stock r = Some s -> threshold r = Some t ->
  (rowDisabled r = true <-> s < t) /\ (s = t -> rowDisabled r = false).
Proof.
  intros Hs Ht. unfold rowDisabled, number_or_zero. rewrite Hs, Ht.
  destruct (Z.eqb_spec s 0), (Z.eqb_spec t 0); subst; lia.
Qed.

Lemma rowDisabled_iff_witness :
  (rowDisabled (Sample.row 5 5) = true <-> 5 < 5) /\
  (5 = 5 -> rowDisabled (Sample.row 5 5) = false).
Proof.
  apply (rowDisabled_iff (Sample.row 5 5) 5 5); reflexivity.
Defined.

(** ** Signs of sums and products *)

Lemma iter_pos_invariant {A} (P : A -> Prop) (f : A -> A) :
  (forall x, P x -> P (f x)) -> forall n x, P x -> P (iter_pos f n x).
Proof.
  intros Hf. induction n as [n IH|n IH|]; intros x Hx; simpl; auto.
Qed.

Lemma shr_1_nonneg (mrs : shr_record) :
  0 <= shr_m mrs -> 0 <= shr_m (shr_1 mrs).
Proof.
  destruct mrs as [m r s]. simpl.
  destruct m as [|[p|p|]|[p|p|]]; simpl; lia.
Qed.

Lemma shr_fexp_nonneg (m e : Z) (l : location) :
  0 <= m -> 0 <= shr_m (fst (shr_fexp prec emax m e l)).
Proof.
  intros Hm. unfold shr_fexp, shr.
  assert (H0 : 0 <= shr_m (shr_record_of_loc m l))
    by (by destruct l as [|[]]).
  destruct (fexp prec emax (Zdigits2 m + e) - e); simpl; auto.
  by apply iter_pos_invariant; [apply shr_1_nonneg|].
Qed.

Lemma round_nearest_even_nonneg (m : Z) (l : location) :
  0 <= m -> 0 <= round_nearest_even m l.
Proof.
  intros Hm. destruct l as [|[]]; simpl; try lia.
  destruct (Z.even m); lia.
Qed.

Lemma binary_round_aux_sign (sx : bool) (mx ex : Z) (lx : location) :
  0 <= mx -> has_sign sx (binary_round_aux prec emax sx mx ex lx).
Proof.
  intros Hm. unfold binary_round_aux.
  pose proof (shr_fexp_nonneg mx ex lx Hm) as H1.
  destruct (shr_fexp prec emax mx ex lx) as [mrs' e']. simpl in H1.
  pose proof (shr_fexp_nonneg _ e' loc_Exact
                (round_nearest_even_nonneg _ (loc_of_shr_record mrs') H1)) as H2.
  destruct (shr_fexp prec emax _ e' loc_Exact) as [mrs'' e'']. simpl in H2.
  destruct (shr_m mrs''); [done| |lia].
  by destruct (e'' <=? emax - prec).
Qed.

Lemma binary_round_sign (sx : bool) (m : positive) (e : Z) :
  has_sign sx (binary_round prec emax sx m e).
Proof.
  unfold binary_round. destruct (shl_align m e _) as [mz ez].
  by apply binary_round_aux_sign.
Qed.

Lemma mul_sign (x y : number) :
  Spec.is_amount x = true ->
  (exists m e, y = S754_finite false m e) ->
  has_sign false (mul x y).
Proof.
  intros Hx (m & e & ->).
  destruct x as [[]| | |[] mx ex]; try discriminate; [done|].
  by apply binary_round_aux_sign.
Qed.

Lemma add_sign (x y : number) :
  has_sign false x -> has_sign false y -> has_sign false (add x y).
Proof.
  destruct x as [sx|sx| |sx mx ex], y as [sy|sy| |sy my ey]; simpl;
    try done; try (by intros -> ->).
  intros -> ->. cbn [cond_Zopp Z.add binary_normalize].
  apply binary_round_sign.
Qed.

Lemma or_zero_sign (x : number) : has_sign false x -> or_zero (Some x) = x.
Proof. destruct x as [[]|[]| |[] ? ?]; done. Qed.

Lemma sumFrom_sign (xs : list number) (acc : number) :
  has_sign false acc -> Forall (has_sign false) xs ->
  has_sign false (Spec.sumFrom acc xs).
Proof.
  intros Hacc Hxs. revert acc Hacc.
  induction Hxs as [|x xs Hx _ IH]; intros acc Hacc; simpl; [done|].
  by apply IH, add_sign.
Qed.

Lemma cartUsdTotal_cartTotal (c : list CartLine) :
  cartUsdTotal c = Spec.cartTotal c.
Proof. unfold cartUsdTotal, Spec.cartTotal, Spec.sum. by rewrite reduce_sumFrom. Qed.

Lemma cartTotal_sign (c : list CartLine) :
  Forall Spec.line_ok c -> has_sign false (Spec.cartTotal c).
Proof.
  intros Hc. apply sumFrom_sign; [done|].
  apply Forall_map. eapply Forall_impl; [exact Hc|].
  intros it [Hp Hq]. by apply mul_sign.
Qed.

(** ** Rounding to hundredths *)

Lemma hundredths_half_up (m : positive) (e : Z) :
  Spec.half_up (100 * to_Q (S754_finite false m e)) (hundredths m e).
Proof.
  unfold Spec.half_up, hundredths.
  destruct e as [|p|k].
  - simpl. unfold Qle, Qlt; simpl. lia.
  - change (0 <=? Z.pos p) with true. cbv iota.
    unfold to_Q. cbn [cond_Zopp].
    generalize (2 ^ Z.pos p). intros P.
    unfold Qle, Qlt; simpl. lia.
  - change (0 <=? Z.neg k) with false. cbv iota.
    change (- Z.neg k) with (Z.pos k).
    unfold to_Q. cbn [cond_Zopp].
    assert (HD : 0 < 2 ^ Z.pos k) by (apply Z.pow_pos_nonneg; lia).
    rewrite Z.pow_add_r by lia. change (2 ^ 1) with 2.
    pose proof (Z.mul_div_le (200 * Z.pos m + 2 ^ Z.pos k)
                  (2 ^ Z.pos k * 2) ltac:(lia)) as H1.
    pose proof (Z.mul_succ_div_gt (200 * Z.pos m + 2 ^ Z.pos k)
                  (2 ^ Z.pos k * 2) ltac:(lia)) as H2.
    revert H1 H2.
    generalize ((200 * Z.pos m + 2 ^ Z.pos k) / (2 ^ Z.pos k * 2)).
    intros n H1 H2.
    unfold Qle, Qlt; simpl. rewrite ?Pos2Z.inj_mul, ?Pos2Z.inj_pow.
    revert HD H1 H2. generalize (2 ^ Z.pos k). intros D HD H1 H2. lia.
Qed.

(** [half_up] determines the integer. *)
Lemma half_up_unique (q : Q) (n n' : Z) :
  Spec.half_up q n -> Spec.half_up q n' -> n = n'.
Proof.
  unfold Spec.half_up. intros [H1 H2] [H1' H2'].
  assert (Hlt : (inject_Z n < inject_Z n' + 1)%Q) by (eapply Qle_lt_trans; eauto).
  assert (Hlt' : (inject_Z n' < inject_Z n + 1)%Q) by (eapply Qle_lt_trans; eauto).
  revert Hlt Hlt'. unfold Qlt; simpl. lia.
Qed.

Lemma ge_1e21_iff (m : positive) (e : Z) :
  ge_1e21 m e = true <-> (inject_Z (10 ^ 21) <= to_Q (S754_finite false m e))%Q.
Proof.
  unfold ge_1e21, to_Q. cbn [cond_Zopp]. destruct e as [|p|k].
  - change (0 <=? 0) with true. cbv iota. rewrite Z.leb_le.
    unfold Qle; simpl. lia.
  - change (0 <=? Z.pos p) with true. cbv iota. rewrite Z.leb_le.
    unfold Qle; simpl. generalize (2 ^ Z.pos p). lia.
  - change (0 <=? Z.neg k) with false. cbv iota.
    change (- Z.neg k) with (Z.pos k). rewrite Z.leb_le.
    unfold Qle. cbn [Qnum Qden inject_Z]. rewrite Pos2Z.inj_pow. lia.
Qed.

(** A total of exactly 2.125 is a tie and goes up to 2.13. *)
Example price_tie_goes_up :
  customTotal (Sample.onlyBase (of_decimal 125 3)) Sample.selBase
  = of_decimal 2125 3 /\
  customPrice (Sample.onlyBase (of_decimal 125 3)) Sample.selBase
  = of_decimal 213 2.
Proof. split; vm_compute; reflexivity. Qed.

(** The total for a base of 1.005 is the binary64 number nearest to 3.005,
    which lies below it: the price is 3.00. *)
Example price_below_tie :
  customTotal (Sample.onlyBase (of_decimal 1005 3)) Sample.selBase
  = of_decimal 3005 3 /\
  (to_Q (of_decimal 3005 3) < 3005 # 1000)%Q /\
  customPrice (Sample.onlyBase (of_decimal 1005 3)) Sample.selBase = of_Z 3.
Proof. repeat split; vm_compute; reflexivity. Qed.

(** C3: the price set is the unrounded total rounded to hundredths, half
    up on the magnitude: for a finite total below 10^21 it is the number
    written [n / 100] with the sign of the total, where [n] is the integer
    nearest to 100 times the magnitude and the larger one on a tie; a zero
    total gives 0, and a total from 10^21 on (which has no fractional part)
    or a non-finite one is set as it is. *)
Theorem customPrice_rounding (opts : Options) (sel : Selection) :
  match customTotal opts sel with
  | S754_finite s m e =>
      if ge_1e21 m e then customPrice opts sel = S754_finite s m e
      else
        exists n : Z,
          Spec.half_up (100 * to_Q (S754_finite false m e)) n /\
          customPrice opts sel
          = let v := div (exact_Z n) (exact_Z 100) in if s then SFopp v else v
  | S754_zero _ => customPrice opts sel = S754_zero false
  | x => customPrice opts sel = x
  end.
Proof.
  unfold customPrice, round2, toFixed2.
  destruct (customTotal opts sel) as [s0|s0| |s m e]; try reflexivity.
  destruct (ge_1e21 m e); [reflexivity|].
  exists (hundredths m e). split; [apply hundredths_half_up|reflexivity].
Qed.

(** ** The checkout request *)

Lemma payNow_posts (env : ImportMetaEnv) (w : World) (st : AppState) :
  exists rest,
    snd (payNow env w st)
    = Post (checkoutRequest env (addr st) (cart st)) :: rest.
Proof.
  unfold payNow, beforeGateway.
  set (st1 := if negb (sdkReady st) || negb (cashfreeRef st) then _ else st).
  assert (H1 : addr st1 = addr st /\ cart st1 = cart st).
  { subst st1. destruct (negb _ || negb _); [|done]. by destruct (w_load w). }
  destruct H1 as [-> ->].
  destruct (w_checkout w) as [[init|]|]; simpl; eauto.
  destruct (is_truthy _); simpl; eauto.
  destruct (or_else (init_orderId init) _) as [o|]; simpl; eauto.
  destruct (truthy_str o); simpl; eauto.
  destruct (negb (cashfreeRef st1)); simpl; eauto.
  destruct (w_gateway w) as [g|]; simpl; eauto.
  destruct (reconcile w o g _) as [st2 effs2]. simpl. eauto.
Qed.

Example checkout_amount_sample :
  req_amount (checkoutRequest Sample.env Sample.address Sample.lines)
  = of_decimal 36188 1.
Proof. vm_compute. reflexivity. Qed.

(** The two factors are applied one after the other, each product rounded;
    that is not always the number a single factor 16.6 gives. *)
Example two_factors_at_7 :
  adjToINR Sample.env (of_Z 7) = mul (mul (of_Z 7) (of_Z 83)) (of_decimal 20 2)
  /\ adjToINR Sample.env (of_Z 7) <> mul (of_Z 7) (of_decimal 166 1).
Proof. split; [reflexivity|by vm_compute]. Qed.

(** C9: on a cart of well-formed lines, the request [payNow] posts carries
    currency "INR" and, as amount, the sum over the lines of unit price
    times quantity, multiplied by [USD_TO_INR] and then by [MARKET_ADJ];
    these are 83 and 0.20 when the environment sets neither. *)
Theorem checkout_amount (env : ImportMetaEnv) (w : World) (st : AppState) :
  Forall Spec.line_ok (cart st) ->
  (exists req rest,
     snd (payNow env w st) = Post req :: rest /\
     req_currency req = "INR" /\
     req_amount req
     = mul (mul (Spec.cartTotal (cart st)) (USD_TO_INR env)) (MARKET_ADJ env)) /\
  USD_TO_INR {| VITE_USD_TO_INR := None; VITE_MARKET_ADJ := None |} = of_Z 83 /\
  MARKET_ADJ {| VITE_USD_TO_INR := None; VITE_MARKET_ADJ := None |}
  = of_decimal 20 2.
Proof.
  intros Hc. split; [|done].
  destruct (payNow_posts env w st) as [rest Hrest].
  eexists _, rest. split; [exact Hrest|]. split; [reflexivity|].
  cbn [checkoutRequest req_amount]. unfold inrNumber, adjToINR.
  rewrite cartUsdTotal_cartTotal, or_zero_sign; [reflexivity|].
  by apply cartTotal_sign.
Qed.

Lemma sample_lines_ok : Forall Spec.line_ok Sample.lines.
Proof.
  repeat apply Forall_cons_2; [| |apply Forall_nil_2];
    (split; [reflexivity|vm_compute; eauto]).
Defined.

Lemma checkout_amount_witness :
  Forall Spec.line_ok (cart Sample.state) /\
  ((exists req rest,
      snd (payNow Sample.env (Sample.world (Resolved (Some true))) Sample.state)
      = Post req :: rest /\
      req_currency req = "INR" /\
      req_amount req
      = mul (mul (Spec.cartTotal (cart Sample.state)) (USD_TO_INR Sample.env))
            (MARKET_ADJ Sample.env)) /\
   USD_TO_INR {| VITE_USD_TO_INR := None; VITE_MARKET_ADJ := None |} = of_Z 83 /\
   MARKET_ADJ {| VITE_USD_TO_INR := None; VITE_MARKET_ADJ := None |}
   = of_decimal 20 2).
Proof.
  split; [exact sample_lines_ok|].
  exact (checkout_amount Sample.env (Sample.world (Resolved (Some true)))
           Sample.state sample_lines_ok).
Defined.

(** ** The add-to-cart gate *)

Lemma findDisabled_iff (arr : list Variant) (i : string) :
  findDisabled arr i = true <-> Spec.isDisabledIn arr i.
Proof.
  unfold findDisabled, Spec.isDisabledIn. split.
  - destruct (Js.find _ arr) as [v|] eqn:Hf; [|discriminate].
    intros Hd. apply find_Some_split in Hf as (pre & post & -> & Hv & Hpre).
    exists pre, v, post. repeat split; auto.
    + by apply bool_decide_eq_true in Hv.
    + eapply Forall_impl; [exact Hpre|]. intros x Hx.
      by apply bool_decide_eq_false in Hx.
  - intros (pre & v & post & -> & Hid & Hd & Hpre).
    assert (Hf : Js.find (fun x => bool_decide (id x = i)) (pre ++ v :: post)
                 = Some v).
    { apply find_Some_split. exists pre, post. repeat split.
      - by apply bool_decide_eq_true.
      - eapply Forall_impl; [exact Hpre|]. intros x Hx.
        by apply bool_decide_eq_false. }
    by rewrite Hf.
Qed.

Lemma some_false_iff {A} (p : A -> bool) (l : list A) :
  Js.some p l = false <-> Forall (fun x => p x = false) l.
Proof.
  unfold Js.some. induction l as [|x l IH]; simpl.
  - split; [constructor|done].
  - rewrite orb_false_iff, IH, Forall_cons. tauto.
Qed.

Lemma truthy_str_iff (s : string) : truthy_str s = true <-> s <> "".
Proof. unfold truthy_str. case_bool_decide; simpl; split; congruence. Qed.

(** Turns [truthy_str s = b] in [H] into the matching fact on [s]. *)
Ltac truthy_hyp H :=
  first [ apply truthy_str_iff in H
        | apply not_true_iff_false in H; rewrite truthy_str_iff in H ].

Lemma canAdd_iff_valid (opts : Options) (sel : Selection) :
  canAdd opts sel = true <-> Spec.valid opts sel.
Proof.
  unfold canAdd, selectedDisabled, Spec.valid.
  rewrite !andb_true_iff, negb_true_iff, !orb_false_iff, !truthy_str_iff.
  rewrite some_false_iff.
  rewrite <- !findDisabled_iff.
  assert (HF : Forall (fun x => findDisabled (veggies opts) x = false)
                      (sel_veggies sel)
               <-> Forall (fun i => ~ Spec.isDisabledIn (veggies opts) i)
                          (sel_veggies sel)).
  { apply Forall_iff. intros x. rewrite <- findDisabled_iff.
    by destruct (findDisabled _ x). }
  rewrite HF. clear HF.
  destruct (findDisabled (bases opts) (sel_base sel)),
           (findDisabled (sauces opts) (sel_sauce sel)),
           (findDisabled (cheeses opts) (sel_cheese sel)),
           (truthy_str (sel_base sel)) eqn:Hb,
           (truthy_str (sel_sauce sel)) eqn:Hs,
           (truthy_str (sel_cheese sel)) eqn:Hc;
    truthy_hyp Hb; truthy_hyp Hs; truthy_hyp Hc;
    cbn [andb]; intuition congruence.
Qed.

(** C5: the builder's add-to-cart button is enabled exactly when the
    composition is valid (base, sauce and cheese selected and no selected
    base, sauce, cheese or veggie disabled); a click appends the custom
    line when it is enabled and leaves the cart as it is otherwise, so the
    cart changes exactly for valid compositions, whatever the price. *)
Theorem add_custom_gate (opts : Options) (sel : Selection) (price : number)
    (c : list CartLine) :
  (canAdd opts sel = true <-> Spec.valid opts sel) /\
  clickAddCustom opts sel price c
  = (if canAdd opts sel then c ++ [CustomLine sel price (of_Z 1)] else c) /\
  (clickAddCustom opts sel price c <> c <-> Spec.valid opts sel).
Proof.
  split; [apply canAdd_iff_valid|]. split; [reflexivity|].
  rewrite <- canAdd_iff_valid. unfold clickAddCustom, addCustomToCart.
  destruct (canAdd opts sel); split; try done.
  intros _ H. apply (f_equal length) in H. rewrite length_app in H.
  simpl in H. lia.
Qed.

(** ** The cart *)

Lemma findIndexFrom_none (pizza : Pizza) (c : list CartLine) (i : Z) :
  Forall (menuOther pizza) c ->
  findIndexFrom (samePizza pizza) c i = Ok (-1).
Proof.
  intros Hc. revert i. induction Hc as [|x c (p & q & -> & Hne) _ IH]; intros i.
  - reflexivity.
  - simpl. rewrite bool_decide_eq_false_2 by done. apply IH.
Qed.

Lemma findIndexFrom_hit (pizza p : Pizza) (q : number)
    (pre post : list CartLine) (i : Z) :
  Forall (menuOther pizza) pre -> _id p = _id pizza ->
  findIndexFrom (samePizza pizza) (pre ++ MenuLine p q :: post) i
  = Ok (i + Z.of_nat (length pre)).
Proof.
  intros Hpre Hid. revert i.
  induction Hpre as [|x c (p' & q' & -> & Hne) _ IH]; intros i.
  - simpl. rewrite bool_decide_eq_true_2 by done. f_equal. lia.
  - simpl. rewrite bool_decide_eq_false_2 by done. rewrite IH. f_equal. lia.
Qed.

Lemma findIndexFrom_throws (pizza : Pizza) (cu : Selection) (pr q : number)
    (pre post : list CartLine) (i : Z) :
  Forall (menuOther pizza) pre ->
  findIndexFrom (samePizza pizza) (pre ++ CustomLine cu pr q :: post) i
  = Throw TypeError.
Proof.
  intros Hpre. revert i.
  induction Hpre as [|x c (p' & q' & -> & Hne) _ IH]; intros i.
  - reflexivity.
  - simpl. rewrite bool_decide_eq_false_2 by done. apply IH.
Qed.

(** On a cart of menu lines none of which is the pizza, [addToCart] appends
    a line of quantity 1. *)
Lemma addToCart_new (pizza : Pizza) (c : list CartLine) :
  Forall (menuOther pizza) c ->
  addToCart pizza c = Ok (c ++ [MenuLine pizza (of_Z 1)]).
Proof.
  intros Hc. unfold addToCart, findIndex.
  by rewrite findIndexFrom_none.
Qed.

(** On a line of the same pizza reached through menu lines only,
    [addToCart] raises the quantity of that line and adds no line. *)
Lemma addToCart_again (pizza p : Pizza) (q : number)
    (pre post : list CartLine) :
  Forall (menuOther pizza) pre -> _id p = _id pizza ->
  addToCart pizza (pre ++ MenuLine p q :: post)
  = Ok (pre ++ MenuLine p (add q (of_Z 1)) :: post).
Proof.
  intros Hpre Hid. unfold addToCart, findIndex.
  rewrite findIndexFrom_hit by done. cbn [bind].
  replace (0 <=? 0 + Z.of_nat (length pre)) with true
    by (symmetry; apply Z.leb_le; lia).
  replace (Z.to_nat (0 + Z.of_nat (length pre))) with (length pre + 0)%nat
    by lia.
  rewrite lookup_app_r by lia.
  replace (length pre + 0 - length pre)%nat with 0%nat by lia.
  cbn [lookup list_lookup].
  rewrite insert_app_r. reflexivity.
Qed.

(** Twice the same pizza into a cart of other menu lines: one new line, of
    quantity 2. *)
Lemma addToCart_twice (pizza : Pizza) (c : list CartLine) :
  Forall (menuOther pizza) c ->
  bind (addToCart pizza c) (addToCart pizza)
  = Ok (c ++ [MenuLine pizza (of_Z 2)]).
Proof.
  intros Hc. rewrite addToCart_new by done. cbn [bind].
  by rewrite addToCart_again.
Qed.

(** A custom line before any line of the pizza makes [addToCart] throw. *)
Lemma addToCart_custom_throws (pizza : Pizza) (cu : Selection) (pr q : number)
    (pre post : list CartLine) :
  Forall (menuOther pizza) pre ->
  addToCart pizza (pre ++ CustomLine cu pr q :: post) = Throw TypeError.
Proof.
  intros Hpre. unfold addToCart, findIndex.
  by rewrite findIndexFrom_throws.
Qed.

(** [addCustomToCart] keeps every line and appends one of quantity 1. *)
Lemma addCustomToCart_appends (cu : Selection) (pr : number)
    (c : list CartLine) :
  length (addCustomToCart cu pr c) = S (length c) /\
  take (length c) (addCustomToCart cu pr c) = c /\
  last (addCustomToCart cu pr c) = Some (CustomLine cu pr (of_Z 1)).
Proof.
  unfold addCustomToCart. rewrite length_app, take_app_length, last_snoc.
  simpl. repeat split. lia.
Qed.

(** C6, on a cart that holds a custom line: the builder's line is appended
    with quantity 1, and adding a menu pizza to that cart throws instead of
    appending or merging a line. *)
Theorem addToCart_after_custom :
  addCustomToCart Sample.sel (of_Z 202) []
  = [CustomLine Sample.sel (of_Z 202) (of_Z 1)] /\
  addToCart Sample.margherita (addCustomToCart Sample.sel (of_Z 202) [])
  = Throw TypeError.
Proof. split; reflexivity. Qed.

(** ** Payment reconciliation *)

Lemma beforeGateway_cart (env : ImportMetaEnv) (w : World)
    (st st1 : AppState) (effs : list Effect) (oid : string) :
  beforeGateway env w st = AtGateway st1 effs oid -> cart st1 = cart st.
Proof.
  unfold beforeGateway.
  set (st0 := if negb (sdkReady st) || negb (cashfreeRef st) then _ else st).
  assert (H0 : cart st0 = cart st).
  { subst st0. destruct (negb _ || negb _); [|done]. by destruct (w_load w). }
  destruct (w_checkout w) as [[init|]|]; try discriminate.
  destruct (is_truthy _); try discriminate.
  destruct (or_else (init_orderId init) _) as [o|]; try discriminate.
  destruct (truthy_str o); try discriminate.
  destruct (negb (cashfreeRef st0)); try discriminate.
  by intros [= <- _ _].
Qed.

(** C7: once a run of [payNow] has reached the hosted checkout and it has
    returned without an error, a verification that reports success empties
    the cart and records success for the order; a verification that
    reports failure, has no success flag or throws leaves the cart as it
    was and records an error, which [PaymentStatus] shows as a failed
    payment with a "Try again" button. *)
Theorem verify_reconciles (env : ImportMetaEnv) (w : World)
    (st st1 : AppState) (effs : list Effect) (oid : string) :
  beforeGateway env w st = AtGateway st1 effs oid ->
  w_gateway w = Resolved None ->
  let st' := fst (payNow env w st) in
  (w_verify w = Resolved (Some true) ->
   cart st' = [] /\ payResult st' = {| status := "success"; orderId := oid |}) /\
  (w_verify w <> Resolved (Some true) ->
   cart st' = cart st /\
   payResult st' = {| status := "error"; orderId := oid |} /\
   view_title (PaymentStatus (status (payResult st'))) = "Payment failed" /\
   view_primary (PaymentStatus (status (payResult st'))) = "Try again").
Proof.
  intros Hb Hg. pose proof (beforeGateway_cart _ _ _ _ _ _ Hb) as Hc.
  unfold payNow. rewrite Hb, Hg. unfold reconcile.
  destruct (w_verify w) as [[[]|]|]; cbn; split; try done; intros _; by rewrite ?Hc.
Qed.

Lemma verify_reconciles_witness :
  beforeGateway Sample.env (Sample.world Rejected) Sample.state
  = AtGateway (set_placing Sample.state true)
      [Post (checkoutRequest Sample.env Sample.address Sample.lines)]
      "order_1" /\
  w_gateway (Sample.world Rejected) = Resolved None /\
  cart (fst (payNow Sample.env (Sample.world Rejected) Sample.state))
  = Sample.lines /\
  status (payResult (fst (payNow Sample.env (Sample.world Rejected) Sample.state)))
  = "error".
Proof.
  assert (Hb : beforeGateway Sample.env (Sample.world Rejected) Sample.state
               = AtGateway (set_placing Sample.state true)
                   [Post (checkoutRequest Sample.env Sample.address Sample.lines)]
                   "order_1") by reflexivity.
  assert (Hg : w_gateway (Sample.world Rejected) = Resolved None) by reflexivity.
  split; [exact Hb|]. split; [exact Hg|].
  destruct (verify_reconciles Sample.env (Sample.world Rejected) Sample.state
              _ _ _ Hb Hg) as [_ Hfail].
  destruct Hfail as (Hcart & Hres & _); [discriminate|].
  split; [exact Hcart|]. by rewrite Hres.
Defined.

(** ** Client and server evaluation *)

Lemma lookup_priceOf (arr : list Variant) (i : string) :
  Server.lookup arr i = Spec.priceOf arr i.
Proof.
  induction arr as [|v arr IH]; simpl; [reflexivity|].
  by rewrite String.eqb_sym, IH.
Qed.

Lemma mult_level (l : string) :
  l ∈ levelOptions -> mult (Some l) = Server.mult (Some l).
Proof.
  unfold levelOptions. rewrite !elem_of_cons, elem_of_nil.
  intros [->|[->|[->|[]]]]; reflexivity.
Qed.

Lemma mult_density (d : option string) :
  (forall l, d = Some l -> l ∈ levelOptions) -> mult d = Server.mult d.
Proof.
  destruct d as [l|]; [|reflexivity]. intros H. by apply mult_level, H.
Qed.

Lemma levelOf_ok (sel : Selection) (i : string) :
  Spec.composition_ok sel -> Spec.levelOf sel i ∈ levelOptions.
Proof.
  intros (_ & _ & Hg & Ho). unfold Spec.levelOf.
  destruct (toppingLevels sel !! i) as [l|] eqn:Hl; simpl; [by eapply Ho|].
  destruct (d_toppings (density sel)) as [l|] eqn:Hd; simpl; [by apply Hg|].
  unfold levelOptions. set_solver.
Qed.

Lemma veggieTotal_sumFrom (catalog : Options) (sel : Selection)
    (ids : list string) (acc : number) :
  Spec.composition_ok sel ->
  Server.veggieTotal catalog sel ids acc
  = Spec.sumFrom acc
      (map (fun i => mul (Spec.priceOf (veggies catalog) i)
                         (mult (Some (Spec.levelOf sel i)))) ids).
Proof.
  intros Hok. revert acc. induction ids as [|i ids IH]; intros acc.
  - reflexivity.
  - cbn [Server.veggieTotal map Spec.sumFrom]. rewrite IH. do 3 f_equal.
    + apply lookup_priceOf.
    + rewrite (mult_level _ (levelOf_ok sel i Hok)). unfold Spec.levelOf.
      destruct (toppingLevels sel !! i); [reflexivity|].
      by destruct (d_toppings (density sel)).
Qed.

Lemma server_price_spec (catalog : Options) (sel : Selection) :
  Spec.composition_ok sel ->
  Server.price catalog sel = Spec.customPrice catalog sel.
Proof.
  intros Hok. pose proof Hok as (Hs & Hc & _).
  unfold Server.price, Spec.customPrice, Spec.unrounded, Spec.veggieSum,
    Spec.sum.
  rewrite !lookup_priceOf, veggieTotal_sumFrom by done.
  by rewrite !mult_density.
Qed.

(** C8: on a catalog whose prices are numbers and a composition whose
    density settings are among low, normal and extra, the price the client
    computes equals the price of the server-side evaluation. *)
Theorem client_server_agree (catalog : Options) (sel : Selection) :
  Spec.catalog_ok catalog -> Spec.composition_ok sel ->
  customPrice catalog sel = Server.price catalog sel.
Proof.
  intros Hcat Hsel. rewrite server_price_spec by done.
  unfold customPrice, Spec.customPrice. by rewrite customTotal_unrounded.
Qed.

Lemma sample_catalog_ok : Spec.catalog_ok Sample.opts.
Proof. unfold Spec.catalog_ok; simpl; repeat constructor. Defined.

Lemma sample_composition_ok : Spec.composition_ok Sample.selExtra.
Proof.
  unfold Spec.composition_ok, levelOptions. simpl. split; [|split; [|split]].
  - intros l [= <-]. repeat constructor.
  - intros l [= <-]. repeat constructor.
  - intros l [= <-]. repeat constructor.
  - intros i l H. apply lookup_singleton_Some in H as [_ <-].
    repeat constructor.
Defined.

Lemma client_server_agree_witness :
  Spec.catalog_ok Sample.opts /\ Spec.composition_ok Sample.selExtra /\
  customPrice Sample.opts Sample.selExtra
  = Server.price Sample.opts Sample.selExtra.
Proof.
  split; [exact sample_catalog_ok|]. split; [exact sample_composition_ok|].
  exact (client_server_agree Sample.opts Sample.selExtra
           sample_catalog_ok sample_composition_ok).
Defined.

(** ** The builder never offers a vegan cheese *)

Lemma or_str_empty (s : string) : or_str (Some s) "" = s.
Proof. unfold or_str, truthy_str. by case_bool_decide. Qed.

Lemma notVegan_iff (c : Variant) :
  notVegan c = true <-> ~ Spec.isVegan c.
Proof.
  unfold notVegan, Spec.isVegan. rewrite !or_str_empty.
  rewrite andb_true_iff, !negb_true_iff, <- !includes_lower_iff.
  destruct (includes "vegan" (toLowerCase (id c))),
           (includes "vegan" (toLowerCase (name c))); intuition congruence.
Qed.

Lemma loadOptions_cheeses (raw : Options) (c : Variant) :
  c ∈ cheeses (loadOptions raw) <-> c ∈ cheeses raw /\ ~ Spec.isVegan c.
Proof.
  cbn [loadOptions cheeses].
  by rewrite !list_elem_of_In, filter_In, notVegan_iff.
Qed.

Lemma contains_ci_empty (w : string) :
  w <> "" -> ~ Spec.contains_ci w "".
Proof.
  intros Hw (pre & mid & post & H & Hm).
  destruct pre; [|discriminate]. destruct mid; [|discriminate].
  simpl in Hm. congruence.
Qed.

(** What a click can do to the selected cheese. *)
Lemma click_cheese (opts : Options) (sel : Selection) (c : Click) :
  sel_cheese (click opts sel c) = sel_cheese sel \/
  exists v, v ∈ cheeses opts /\ disabled v = false /\
            sel_cheese (click opts sel c) = id v.
Proof.
  destruct c as [k|k|k|k|k|k|k j]; cbn [click]; unfold pick.
  - destruct (bases opts !! k) as [v|]; [|by left]. destruct (disabled v); by left.
  - destruct (sauces opts !! k) as [v|]; [|by left]. destruct (disabled v); by left.
  - destruct (cheeses opts !! k) as [v|] eqn:Hk; [|by left].
    destruct (disabled v) eqn:Hd; [by left|]. right. exists v.
    split; [by eapply list_elem_of_lookup_2|done].
  - destruct (levelOptions !! k); [|by left]. destruct (_ || _); by left.
  - destruct (levelOptions !! k); [|by left]. destruct (_ || _); by left.
  - destruct (veggies opts !! k) as [v|]; [|by left].
    destruct (disabled v); [by left|]. unfold toggleVeg.
    destruct (Js.find _ _) as [item|]; [|by left].
    destruct (disabled item); [by left|]. case_bool_decide; by left.
  - destruct (sel_veggies sel !! k), (levelOptions !! j); by left.
Qed.

Lemma clicks_cheese_offered (opts : Options) (clicks : list Click)
    (sel : Selection) :
  cheese_offered opts sel ->
  cheese_offered opts (fold_left (click opts) clicks sel).
Proof.
  revert sel. induction clicks as [|c clicks IH]; intros sel Hsel; [done|].
  simpl. apply IH. unfold cheese_offered in *.
  destruct (click_cheese opts sel c) as [->|(v & Hv & _ & ->)]; [done|].
  right. eauto.
Qed.

Lemma session_cheese_offered (raw : Options) (clicks : list Click) :
  cheese_offered (loadOptions raw) (session raw clicks).
Proof. apply clicks_cheese_offered. by left. Qed.

Example sample_builder_cheeses :
  cheeses (loadOptions Sample.opts) = [Sample.variant "mozzarella" 30 false].
Proof. reflexivity. Qed.

(** C10: whatever catalog the server sends, the cheese list the builder
    keeps holds no variant whose id or name contains "vegan" in any case of
    the letters; in every session the selected cheese is none or a cheese of
    the catalog that is not such a variant, and the cheese price that
    enters a computed price is 0 or the price of a cheese that is not such
    a variant. *)
Theorem builder_never_vegan (raw : Options) (clicks : list Click)
    (sel : Selection) :
  let opts := loadOptions raw in
  Forall (fun c => ~ Spec.isVegan c) (cheeses opts) /\
  (sel_cheese (session raw clicks) = "" \/
   exists c, c ∈ cheeses raw /\ ~ Spec.isVegan c /\
             sel_cheese (session raw clicks) = id c) /\
  ~ Spec.contains_ci "vegan" (sel_cheese (session raw clicks)) /\
  (findPrice (cheeses opts) (sel_cheese sel) = of_Z 0 \/
   exists c, c ∈ cheeses raw /\ ~ Spec.isVegan c /\
             findPrice (cheeses opts) (sel_cheese sel) = or_zero (Some (price c))).
Proof.
  intros opts.
  assert (Hoff : sel_cheese (session raw clicks) = "" \/
                 exists c, c ∈ cheeses raw /\ ~ Spec.isVegan c /\
                           sel_cheese (session raw clicks) = id c).
  { destruct (session_cheese_offered raw clicks) as [?|(v & Hv & ?)]; [by left|].
    apply loadOptions_cheeses in Hv as [? ?]. right. eauto. }
  split; [|split; [exact Hoff|split]].
  - apply Forall_forall. intros c Hc. by apply loadOptions_cheeses in Hc as [_ ?].
  - destruct Hoff as [->|(c & _ & Hc & ->)].
    + by apply contains_ci_empty.
    + intros H. apply Hc. by left.
  - unfold findPrice.
    destruct (Js.find _ (cheeses opts)) as [c|] eqn:Hf; [|by left].
    apply find_elem_of in Hf as [Hc _].
    apply loadOptions_cheeses in Hc as [? ?]. right. eauto.
Qed.

(** The admin table drops the same rows. *)
Lemma scrubbed_cheeses (data : VariantInventory) :
  Forall (fun x => ~ Spec.contains_ci "vegan" (row_id x) /\
                   ~ Spec.contains_ci "vegan" (row_name x))
         (inv_cheeses (scrubbed data)).
Proof.
  apply Forall_forall. intros x Hx. cbn [scrubbed inv_cheeses] in Hx.
  apply list_elem_of_In, filter_In in Hx as [_ Hx].
  rewrite !or_str_empty in Hx. unfold testVegan in Hx.
  apply andb_true_iff in Hx as [H1 H2].
  apply negb_true_iff in H1, H2.
  rewrite <- !includes_lower_iff. by rewrite H1, H2.
Qed.

(** ** The steppers and the remove button *)

Lemma filterFrom_past {A} (idx : nat) (l : list A) (i : nat) :
  (idx < i)%nat ->
  filterFrom (fun _ j => negb (bool_decide (j = idx))) l i = l.
Proof.
  revert i. induction l as [|x l IH]; intros i Hi; simpl; [done|].
  rewrite bool_decide_eq_false_2 by lia. simpl. by rewrite IH by lia.
Qed.

Lemma filterFrom_cut {A} (idx : nat) (l : list A) (i : nat) :
  (i <= idx)%nat ->
  filterFrom (fun _ j => negb (bool_decide (j = idx))) l i
  = take (idx - i) l ++ drop (S (idx - i)) l.
Proof.
  revert i. induction l as [|x l IH]; intros i Hi; simpl.
  - by rewrite take_nil.
  - case_bool_decide as Hj; simpl.
    + subst i. rewrite Nat.sub_diag. simpl. rewrite drop_0.
      apply filterFrom_past. lia.
    + rewrite IH by lia. replace (idx - i)%nat with (S (idx - S i)) by lia.
      reflexivity.
Qed.

Lemma mapFrom_past {A} (g : A -> A) (idx : nat) (l : list A) (i : nat) :
  (idx < i)%nat ->
  mapFrom (fun x j => if bool_decide (j = idx) then g x else x) l i = l.
Proof.
  revert i. induction l as [|x l IH]; intros i Hi; simpl; [done|].
  rewrite bool_decide_eq_false_2 by lia. by rewrite IH by lia.
Qed.

Lemma mapFrom_at {A} (g : A -> A) (idx : nat) (l : list A) (i : nat) :
  (i <= idx)%nat ->
  mapFrom (fun x j => if bool_decide (j = idx) then g x else x) l i
  = match l !! (idx - i)%nat with
    | Some x => <[(idx - i)%nat := g x]> l
    | None => l
    end.
Proof.
  revert i. induction l as [|x l IH]; intros i Hi; simpl; [done|].
  case_bool_decide as Hj.
  - subst i. rewrite Nat.sub_diag. simpl. by rewrite mapFrom_past by lia.
  - rewrite IH by lia. replace (idx - i)%nat with (S (idx - S i)) by lia.
    simpl. by destruct (l !! (idx - S i)%nat).
Qed.

Lemma flatMapFrom_past {A} (h : A -> list A) (idx : nat) (l : list A)
    (i : nat) :
  (idx < i)%nat ->
  flatMapFrom (fun x j => if bool_decide (j = idx) then h x else [x]) l i = l.
Proof.
  revert i. induction l as [|x l IH]; intros i Hi; simpl; [done|].
  rewrite bool_decide_eq_false_2 by lia. simpl. by rewrite IH by lia.
Qed.

Lemma flatMapFrom_at {A} (h : A -> list A) (idx : nat) (l : list A)
    (i : nat) :
  (i <= idx)%nat ->
  flatMapFrom (fun x j => if bool_decide (j = idx) then h x else [x]) l i
  = match l !! (idx - i)%nat with
    | Some x => take (idx - i) l ++ h x ++ drop (S (idx - i)) l
    | None => l
    end.
Proof.
  revert i. induction l as [|x l IH]; intros i Hi; simpl; [done|].
  case_bool_decide as Hj.
  - subst i. rewrite Nat.sub_diag. simpl. rewrite drop_0.
    by rewrite flatMapFrom_past by lia.
  - rewrite IH by lia. replace (idx - i)%nat with (S (idx - S i)) by lia.
    simpl. by destruct (l !! (idx - S i)%nat).
Qed.

Lemma removeItem_take_drop (idx : nat) (c : list CartLine) :
  removeItem idx c = take idx c ++ drop (S idx) c.
Proof.
  unfold removeItem. rewrite filterFrom_cut by lia. by rewrite Nat.sub_0_r.
Qed.

(** X1: [removeItem(idx)] drops the line at [idx] and nothing else: the
    lines before and after it stay, in order; an index past the end leaves
    the cart as it is. *)
Theorem removeItem_cut (idx : nat) (c : list CartLine) :
  removeItem idx c = take idx c ++ drop (S idx) c /\
  ((length c <= idx)%nat -> removeItem idx c = c) /\
  ((idx < length c)%nat -> length (removeItem idx c) = pred (length c)).
Proof.
  pose proof (removeItem_take_drop idx c) as H.
  split; [exact H|]. rewrite H. split; intros Hl.
  - rewrite take_ge, drop_ge by lia. by rewrite app_nil_r.
  - rewrite length_app, length_take, length_drop. lia.
Qed.

(** X2: [decItem(idx)] on a line whose quantity exceeds 1 lowers that
    quantity by one in place; on a line whose quantity does not exceed 1
    (quantity 1 in particular) it removes the line, as [removeItem] does;
    past the end it leaves the cart as it is. *)
Theorem decItem_cases (idx : nat) (c : list CartLine) :
  decItem idx c
  = match c !! idx with
    | Some it =>
        if num_gt (quantity it) (of_Z 1)
        then <[idx := with_quantity it (num_sub (quantity it) (of_Z 1))]> c
        else removeItem idx c
    | None => c
    end /\
  (forall it, c !! idx = Some it -> quantity it = of_Z 1 ->
              decItem idx c = removeItem idx c).
Proof.
  assert (H : decItem idx c
              = match c !! idx with
                | Some it =>
                    if num_gt (quantity it) (of_Z 1)
                    then <[idx := with_quantity it
                                    (num_sub (quantity it) (of_Z 1))]> c
                    else removeItem idx c
                | None => c
                end).
  { unfold decItem.
    rewrite (flatMapFrom_at
               (fun it => if num_gt (quantity it) (of_Z 1)
                          then [with_quantity it (num_sub (quantity it) (of_Z 1))]
                          else []) idx c 0) by lia.
    rewrite Nat.sub_0_r. destruct (c !! idx) as [it|] eqn:Hit; [|done].
    destruct (num_gt (quantity it) (of_Z 1)).
    - simpl. rewrite insert_take_drop by (by eapply lookup_lt_Some).
      reflexivity.
    - simpl. by rewrite removeItem_take_drop. }
  split; [exact H|]. intros it Hit Hq. rewrite H, Hit, Hq. reflexivity.
Qed.

(** X3: [incItem(idx)] raises the quantity of the line at [idx] by one and
    changes nothing else: the number of lines, their order, their pizzas
    and unit prices and every other line stay; past the end the cart is
    left as it is. *)
Theorem incItem_only_quantity (idx : nat) (c : list CartLine) :
  incItem idx c
  = match c !! idx with
    | Some it => <[idx := with_quantity it (add (quantity it) (of_Z 1))]> c
    | None => c
    end /\
  length (incItem idx c) = length c /\
  map lineUnitPrice (incItem idx c) = map lineUnitPrice c /\
  map line_pizza (incItem idx c) = map line_pizza c /\
  (forall i, i <> idx -> incItem idx c !! i = c !! i).
Proof.
  assert (H : incItem idx c
              = match c !! idx with
                | Some it =>
                    <[idx := with_quantity it (add (quantity it) (of_Z 1))]> c
                | None => c
                end).
  { unfold incItem.
    rewrite (mapFrom_at (fun it => with_quantity it (add (quantity it) (of_Z 1)))
               idx c 0) by lia.
    by rewrite Nat.sub_0_r. }
  split; [exact H|]. rewrite H.
  destruct (c !! idx) as [it|] eqn:Hit; [|done].
  repeat split.
  - by rewrite length_insert.
  - rewrite list_fmap_insert. apply list_insert_id.
    rewrite list_lookup_fmap, Hit. by destruct it.
  - rewrite list_fmap_insert. apply list_insert_id.
    rewrite list_lookup_fmap, Hit. by destruct it.
  - intros i Hi. by rewrite list_lookup_insert_ne.
Qed.

Lemma findIndexFrom_result (pizza : Pizza) (c : list CartLine) (i : Z) :
  (exists pre cu pr q post,
      c = pre ++ CustomLine cu pr q :: post /\ Forall (menuOther pizza) pre) \/
  (exists pre p q post,
      c = pre ++ MenuLine p q :: post /\ Forall (menuOther pizza) pre /\
      _id p = _id pizza) \/
  Forall (menuOther pizza) c.
Proof.
  induction c as [|x c IH].
  - right. right. constructor.
  - destruct x as [p q|cu pr q].
    + destruct (decide (_id p = _id pizza)) as [Heq|Hne].
      * right. left. exists [], p, q, c. by repeat split.
      * assert (Hx : menuOther pizza (MenuLine p q)) by (by exists p, q).
        destruct IH as [(pre & cu & pr & q' & post & -> & Hpre)
                       |[(pre & p' & q' & post & -> & Hpre & Hid)|Hall]].
        -- left. exists (MenuLine p q :: pre), cu, pr, q', post.
           by split; [|constructor].
        -- right. left. exists (MenuLine p q :: pre), p', q', post.
           by repeat split; [constructor|].
        -- right. right. by constructor.
    + left. exists [], cu, pr, q, c. by split.
Qed.

(** X4: [addToCart] throws exactly when a custom line comes before every
    line of the pizza (or there is no such line): that is, when the cart is
    some menu lines of other pizzas followed by a custom line.  Otherwise
    it returns a cart with the same lines or one more. *)
Theorem addToCart_throws_iff (pizza : Pizza) (c : list CartLine) :
  (addToCart pizza c = Throw TypeError <->
   exists pre cu pr q post,
     c = pre ++ CustomLine cu pr q :: post /\ Forall (menuOther pizza) pre) /\
  (forall c', addToCart pizza c = Ok c' ->
              length c' = length c \/ length c' = S (length c)).
Proof.
  split.
  - split.
    + intros Hthrow.
      destruct (findIndexFrom_result pizza c 0)
        as [H|[(pre & p & q & post & -> & Hpre & Hid)|Hall]]; [exact H| |].
      * by rewrite addToCart_again in Hthrow.
      * by rewrite addToCart_new in Hthrow.
    + intros (pre & cu & pr & q & post & -> & Hpre).
      by apply addToCart_custom_throws.
  - intros c' Hok.
    destruct (findIndexFrom_result pizza c 0)
      as [(pre & cu & pr & q & post & -> & Hpre)
         |[(pre & p & q & post & -> & Hpre & Hid)|Hall]].
    + by rewrite addToCart_custom_throws in Hok.
    + rewrite addToCart_again in Hok by done. injection Hok as <-.
      left. by rewrite !length_app.
    + rewrite addToCart_new in Hok by done. injection Hok as <-.
      right. rewrite length_app. simpl. lia.
Qed.

(** ** What the builder keeps through its clicks *)

Lemma sessionInv_initial (opts : Options) : sessionInv opts initialSel.
Proof.
  split; simpl.
  - constructor.
  - intros i. rewrite lookup_empty. split; [by intros ?%elem_of_nil|by intros [? ?]].
  - intros i l. by rewrite lookup_empty.
  - exists "normal", "normal". repeat split; repeat constructor.
  - constructor.
  - by left.
  - by left.
  - by left.
Qed.

Lemma pick_slot (arr : list Variant) (k : nat) (s : string) :
  slot_ok arr s ->
  slot_ok arr (match arr !! k with
               | Some v => if disabled v then s else id v
               | None => s
               end).
Proof.
  intros Hs. destruct (arr !! k) as [v|] eqn:Hk; [|done].
  destruct (disabled v) eqn:Hd; [done|].
  right. exists v. split; [by eapply list_elem_of_lookup_2|done].
Qed.

Lemma filter_ne_elem_of (i j : string) (l : list string) :
  j ∈ List.filter (fun x => negb (bool_decide (x = i))) l <-> j ∈ l /\ j <> i.
Proof.
  rewrite !list_elem_of_In, filter_In, negb_true_iff, bool_decide_eq_false.
  tauto.
Qed.

Lemma toggleVeg_inv (opts : Options) (i : string) (s : Selection) :
  sessionInv opts s -> sessionInv opts (toggleVeg opts i s).
Proof.
  intros [Hnd Hlv Hlo Hd Hv Hb Hs Hc]. unfold toggleVeg.
  destruct (Js.find _ (veggies opts)) as [item|] eqn:Hf; [|by split].
  destruct (disabled item) eqn:Hdis; [by split|].
  case_bool_decide as Hin; split;
    cbn [set_veggies sel_veggies toppingLevels density sel_base sel_sauce
         sel_cheese]; try done.
  - by apply NoDup_ListNoDup, List.NoDup_filter, NoDup_ListNoDup.
  - intros j. rewrite filter_ne_elem_of, lookup_delete_is_Some, Hlv.
    split; intros [? ?]; split; auto.
  - intros j l Hl. apply lookup_delete_Some in Hl as [_ Hl]. by eapply Hlo.
  - apply Forall_forall. intros j [Hj _]%filter_ne_elem_of.
    by eapply Forall_forall in Hv.
  - apply NoDup_app. split; [done|]. split; [|apply NoDup_singleton].
    intros j Hj ->%list_elem_of_singleton. done.
  - intros j. rewrite elem_of_app, list_elem_of_singleton,
      lookup_insert_is_Some', Hlv. split; intros [?|?]; subst; auto.
  - intros j l Hl. apply lookup_insert_Some in Hl as [[_ <-]|[_ Hl]].
    + repeat constructor.
    + by eapply Hlo.
  - apply Forall_app. split; [done|]. apply Forall_singleton. eauto.
Qed.

Lemma click_inv (opts : Options) (sel : Selection) (c : Click) :
  sessionInv opts sel -> sessionInv opts (click opts sel c).
Proof.
  intros Hinv. pose proof Hinv as [Hnd Hlv Hlo Hd Hv Hb Hs Hc].
  destruct c as [k|k|k|k|k|k|k j]; cbn [click]; unfold pick.
  - pose proof (pick_slot (bases opts) k _ Hb) as Hb'.
    destruct (bases opts !! k) as [v|]; [|done].
    destruct (disabled v); [done|]. by split.
  - pose proof (pick_slot (sauces opts) k _ Hs) as Hs'.
    destruct (sauces opts !! k) as [v|]; [|done].
    destruct (disabled v); [done|]. by split.
  - pose proof (pick_slot (cheeses opts) k _ Hc) as Hc'.
    destruct (cheeses opts !! k) as [v|]; [|done].
    destruct (disabled v); [done|]. by split.
  - destruct (levelOptions !! k) as [v|] eqn:Hk; [|done].
    destruct (_ || _); [done|]. split; simpl; try done.
    destruct Hd as (ls & lc & -> & Hls & Hlc). exists v, lc. simpl.
    split; [done|]. split; [by eapply list_elem_of_lookup_2|done].
  - destruct (levelOptions !! k) as [v|] eqn:Hk; [|done].
    destruct (_ || _); [done|]. split; simpl; try done.
    destruct Hd as (ls & lc & -> & Hls & Hlc). exists ls, v. simpl.
    split; [done|]. split; [done|by eapply list_elem_of_lookup_2].
  - destruct (veggies opts !! k) as [v|]; [|done].
    destruct (disabled v); [done|]. by apply toggleVeg_inv.
  - destruct (sel_veggies sel !! k) as [i|] eqn:Hk; [|done].
    destruct (levelOptions !! j) as [opt|] eqn:Hj; [|done].
    assert (Hi : i ∈ sel_veggies sel) by (by eapply list_elem_of_lookup_2).
    split; simpl; try done.
    + intros i'. rewrite lookup_insert_is_Some', <- Hlv.
      split; [auto|intros [?|?]; subst; auto].
    + intros i' l Hl. apply lookup_insert_Some in Hl as [[_ <-]|[_ Hl]].
      * by eapply list_elem_of_lookup_2.
      * by eapply Hlo.
Qed.

Lemma builderRun_inv (opts : Options) (clicks : list Click) :
  sessionInv opts (builderRun opts clicks).
Proof.
  unfold builderRun. generalize (sessionInv_initial opts).
  generalize initialSel. induction clicks as [|c clicks IH]; intros sel Hsel.
  - done.
  - simpl. by apply IH, click_inv.
Qed.

(** X5: after any run of clicks, the selected veggies are pairwise
    different, the veggies that carry a level of their own are exactly the
    selected ones, and the level the price uses for a selected veggie is
    that own level, never the global toppings density. *)
Theorem builder_veggie_levels (opts : Options) (clicks : list Click) :
  let sel := builderRun opts clicks in
  NoDup (sel_veggies sel) /\
  (forall i, i ∈ sel_veggies sel <-> is_Some (toppingLevels sel !! i)) /\
  Forall (fun i => toppingLevels sel !! i = Some (veggieLevel sel i))
         (sel_veggies sel).
Proof.
  intros sel. destruct (builderRun_inv opts clicks) as [Hnd Hlv _ _ _ _ _ _].
  fold sel in Hnd, Hlv. repeat split; try done; try apply Hlv.
  apply Forall_forall. intros i Hi. apply Hlv in Hi as [l Hl].
  unfold veggieLevel. by rewrite Hl.
Qed.

(** X6: after any run of clicks, the sauce and cheese densities are set
    and they and every veggie level are among low, normal and extra, and
    the global toppings density is still normal: the builder never
    produces a level outside the three it offers. *)
Theorem builder_levels_offered (opts : Options) (clicks : list Click) :
  let sel := builderRun opts clicks in
  Spec.composition_ok sel /\
  d_toppings (density sel) = Some "normal" /\
  (exists ls lc, d_sauce (density sel) = Some ls /\
                 d_cheese (density sel) = Some lc) /\
  Forall (fun i => veggieLevel sel i ∈ levelOptions) (sel_veggies sel).
Proof.
  intros sel.
  destruct (builderRun_inv opts clicks) as [_ Hlv Hlo Hd _ _ _ _].
  fold sel in Hlv, Hlo, Hd. destruct Hd as (ls & lc & Hd & Hls & Hlc).
  repeat split.
  - intros l. rewrite Hd. simpl. by intros [= <-].
  - intros l. rewrite Hd. simpl. by intros [= <-].
  - intros l. rewrite Hd. simpl. intros [= <-]. repeat constructor.
  - exact Hlo.
  - by rewrite Hd.
  - exists ls, lc. by rewrite Hd.
  - apply Forall_forall. intros i Hi. apply Hlv in Hi as [l Hl].
    unfold veggieLevel. rewrite Hl. by eapply Hlo.
Qed.

Lemma unique_ids_eq (arr : list Variant) (v v' : Variant) :
  unique_ids arr -> v ∈ arr -> v' ∈ arr -> id v = id v' -> v = v'.
Proof.
  unfold unique_ids. induction arr as [|x arr IH]; simpl.
  - by intros _ ?%elem_of_nil.
  - intros [Hx Hnd]%NoDup_cons [->|Hv]%elem_of_cons [->|Hv']%elem_of_cons Hid.
    + done.
    + exfalso. apply Hx. rewrite Hid. by apply list_elem_of_fmap_2.
    + exfalso. apply Hx. rewrite <- Hid. by apply list_elem_of_fmap_2.
    + by apply IH.
Qed.

Lemma slot_not_disabled (arr : list Variant) (s : string) :
  unique_ids arr -> slot_ok arr s ->
  truthy_str s && findDisabled arr s = false.
Proof.
  intros Hu [->|(v & Hv & Hd & ->)]; [done|].
  apply andb_false_iff. right. unfold findDisabled.
  destruct (Js.find _ arr) as [v'|] eqn:Hf; [|done].
  apply find_elem_of in Hf as [Hv' Hid]. apply bool_decide_eq_true in Hid.
  by rewrite (unique_ids_eq arr v' v Hu Hv' Hv Hid).
Qed.

(** X7: on a catalog whose bases, sauces and cheeses have pairwise
    different ids, no run of clicks selects a disabled variant, so the
    add-to-cart button is enabled exactly when base, sauce and cheese are
    all chosen. *)
Theorem builder_gate_three_slots (opts : Options) (clicks : list Click) :
  unique_ids (bases opts) -> unique_ids (sauces opts) ->
  unique_ids (cheeses opts) ->
  let sel := builderRun opts clicks in
  selectedDisabled opts sel = false /\
  (canAdd opts sel = true <->
   sel_base sel <> "" /\ sel_sauce sel <> "" /\ sel_cheese sel <> "").
Proof.
  intros Hub Hus Huc sel.
  destruct (builderRun_inv opts clicks) as [_ _ _ _ Hv Hb Hs Hc].
  fold sel in Hv, Hb, Hs, Hc.
  assert (Hsd : selectedDisabled opts sel = false).
  { unfold selectedDisabled.
    rewrite (slot_not_disabled _ _ Hub Hb), (slot_not_disabled _ _ Hus Hs),
      (slot_not_disabled _ _ Huc Hc). simpl.
    apply some_false_iff. eapply Forall_impl; [exact Hv|].
    intros i (v & Hf & Hd). unfold findDisabled. by rewrite Hf. }
  split; [exact Hsd|]. unfold canAdd. rewrite Hsd. simpl.
  rewrite andb_true_r, !andb_true_iff, !truthy_str_iff. tauto.
Qed.

Lemma filter_ne_snoc (i : string) (l : list string) :
  i ∉ l -> List.filter (fun x => negb (bool_decide (x = i))) (l ++ [i]) = l.
Proof.
  intros Hi. rewrite List.filter_app. simpl.
  rewrite bool_decide_eq_true_2 by done. simpl. rewrite app_nil_r.
  induction l as [|x l IH]; simpl; [done|].
  apply not_elem_of_cons in Hi as [Hx Hl].
  rewrite bool_decide_eq_false_2 by done. simpl. by rewrite IH.
Qed.

Lemma set_veggies_same (s : Selection) :
  set_veggies s (sel_veggies s) (toppingLevels s) = s.
Proof. by destruct s. Qed.

Lemma toggleVeg_twice (opts : Options) (i : string) (s : Selection) :
  i ∉ sel_veggies s -> toppingLevels s !! i = None ->
  toggleVeg opts i (toggleVeg opts i s) = s.
Proof.
  intros Hnot Hnone. unfold toggleVeg at 2.
  destruct (Js.find _ (veggies opts)) as [item|] eqn:Hf;
    [|unfold toggleVeg; by rewrite Hf].
  destruct (disabled item) eqn:Hd; [unfold toggleVeg; by rewrite Hf, Hd|].
  rewrite bool_decide_eq_false_2 by done.
  unfold toggleVeg. rewrite Hf, Hd. cbn [sel_veggies set_veggies].
  rewrite bool_decide_eq_true_2
    by (apply elem_of_app; right; by apply list_elem_of_singleton).
  cbn [toppingLevels set_veggies]. unfold set_veggies at 1.
  cbn [sel_base sel_sauce sel_cheese density set_veggies].
  rewrite filter_ne_snoc by done. rewrite delete_insert_id by done.
  apply set_veggies_same.
Qed.

(** X8: clicking a veggie that is not selected and clicking it again
    brings the builder back to the selection it had: the veggie list, the
    levels and everything else. *)
Theorem builder_veggie_twice (opts : Options) (clicks : list Click)
    (k : nat) (v : Variant) :
  veggies opts !! k = Some v ->
  id v ∉ sel_veggies (builderRun opts clicks) ->
  builderRun opts (clicks ++ [ClickVeggie k; ClickVeggie k])
  = builderRun opts clicks.
Proof.
  intros Hk Hnot. unfold builderRun at 1. rewrite fold_left_app.
  fold (builderRun opts clicks). cbn [fold_left click]. rewrite Hk.
  destruct (disabled v); [done|].
  destruct (builderRun_inv opts clicks) as [_ Hlv _ _ _ _ _ _].
  apply toggleVeg_twice; [done|].
  apply eq_None_not_Some. by rewrite <- Hlv.
Qed.

Lemma reduce_ext_in {A B} (f g : B -> A -> B) (l : list A) (b : B) :
  (forall acc x, x ∈ l -> f acc x = g acc x) ->
  Js.reduce f l b = Js.reduce g l b.
Proof.
  unfold Js.reduce. revert b. induction l as [|x l IH]; intros b H; [done|].
  simpl. rewrite H by (by left). apply IH. intros acc y Hy. apply H. by right.
Qed.

(** X9: selecting a veggie that was not selected adds its price times 2,
    the multiplier of the level "normal" it starts with, to the veggie
    total, after the contributions of the veggies selected before, which
    stay as they were. *)
Theorem toggleVeg_adds_price (opts : Options) (i : string) (s : Selection)
    (item : Variant) :
  Js.find (fun v => bool_decide (id v = i)) (veggies opts) = Some item ->
  disabled item = false -> i ∉ sel_veggies s ->
  vegTotal opts (toggleVeg opts i s)
  = add (vegTotal opts s) (mul (findPrice (veggies opts) i) (of_Z 2)).
Proof.
  intros Hf Hd Hnot. unfold toggleVeg. rewrite Hf, Hd.
  rewrite bool_decide_eq_false_2 by done.
  unfold vegTotal, Js.reduce. cbn [sel_veggies set_veggies].
  rewrite fold_left_app. cbn [fold_left]. f_equal.
  - apply (reduce_ext_in _ _ (sel_veggies s)). intros acc j Hj.
    unfold veggieLevel. cbn [toppingLevels set_veggies density].
    rewrite lookup_insert_ne by (intros ->; done). reflexivity.
  - unfold veggieLevel. cbn [toppingLevels set_veggies].
    by rewrite lookup_insert_eq.
Qed.

(** ** The price is a non-negative number *)

Lemma amount_sign (x : number) :
  Spec.is_amount x = true -> has_sign false x.
Proof. by destruct x as [[]| | |[] ? ?]. Qed.

Lemma mult_positive (d : option string) : is_positive (mult d).
Proof.
  unfold mult, is_positive.
  destruct (_ || _); [vm_compute; eauto|].
  destruct (bool_decide _); vm_compute; eauto.
Qed.

Lemma findPrice_amount (arr : list Variant) (i : string) :
  Forall (fun v => Spec.is_amount (price v) = true) arr ->
  Spec.is_amount (findPrice arr i) = true.
Proof.
  intros Harr. unfold findPrice.
  destruct (Js.find _ arr) as [v|] eqn:Hf; [|reflexivity].
  apply find_elem_of in Hf as [Hv _].
  eapply Forall_forall in Harr; [|exact Hv]. simpl.
  by destruct (price v) as [[]| | |[] ? ?].
Qed.

Lemma mul_sign_any (x y : number) :
  has_sign false x -> is_positive y -> has_sign false (mul x y).
Proof.
  intros Hx (m & e & ->).
  destruct x as [sx|sx| |sx mx ex]; simpl in Hx; try done; subst sx;
    [done|done|].
  by apply binary_round_aux_sign.
Qed.

Lemma hundredths_nonneg (m : positive) (e : Z) : 0 <= hundredths m e.
Proof.
  unfold hundredths. destruct (Z.leb_spec 0 e).
  - apply Z.mul_nonneg_nonneg; [lia|]. apply Z.pow_nonneg. lia.
  - apply Z.div_pos; [|apply Z.pow_pos_nonneg; lia].
    assert (0 <= 2 ^ (- e)) by (apply Z.pow_nonneg; lia). lia.
Qed.

Lemma div_sign (p q : positive) (e e' : Z) :
  has_sign false (div (S754_finite false p e) (S754_finite false q e')).
Proof.
  unfold div, SFdiv.
  destruct (SFdiv_core_binary prec emax (Z.pos p) e (Z.pos q) e')
    as [[mz ez] lz] eqn:Hcore.
  apply binary_round_aux_sign.
  unfold SFdiv_core_binary in Hcore.
  set (m' := match _ - _ - _ with Z.pos _ => _ | _ => _ end) in Hcore.
  assert (Hm' : 0 <= m').
  { subst m'. destruct (_ - _ - _); [lia| |lia].
    apply Z.shiftl_nonneg. lia. }
  pose proof (Z.div_pos m' (Z.pos q) Hm' ltac:(lia)) as Hq.
  unfold Z.div in Hq. destruct (Z.div_eucl m' (Z.pos q)) as [q0 r0].
  by injection Hcore as <- _ _.
Qed.

Lemma round2_sign (x : number) : has_sign false x -> has_sign false (round2 x).
Proof.
  destruct x as [sx|sx| |sx m e]; simpl; try done.
  intros ->. unfold round2, toFixed2. destruct (ge_1e21 m e); [done|].
  cbn [Number_of]. pose proof (hundredths_nonneg m e) as Hn.
  destruct (hundredths m e) as [|p|p]; [done| |lia].
  apply div_sign.
Qed.

Lemma customTotal_sign (opts : Options) (sel : Selection) :
  catalog_amounts opts -> has_sign false (customTotal opts sel).
Proof.
  unfold catalog_amounts. rewrite !Forall_app. intros (Hb & Hs & Hc & Hv).
  unfold customTotal. repeat apply add_sign.
  - done.
  - by apply amount_sign, findPrice_amount.
  - apply mul_sign_any; [by apply amount_sign, findPrice_amount|].
    apply mult_positive.
  - apply mul_sign_any; [by apply amount_sign, findPrice_amount|].
    apply mult_positive.
  - unfold vegTotal.
    rewrite (reduce_sumFrom
               (fun i => mul (findPrice (veggies opts) i)
                             (mult (Some (veggieLevel sel i))))).
    apply sumFrom_sign; [done|]. apply Forall_map, Forall_forall.
    intros i _. apply mul_sign_any; [by apply amount_sign, findPrice_amount|].
    apply mult_positive.
Qed.

(** X10: on a catalog of non-negative finite prices, the unrounded total
    and the price the builder sets are never NaN and never negative, for
    any composition. *)
Theorem customPrice_nonneg (opts : Options) (sel : Selection) :
  catalog_amounts opts ->
  has_sign false (customTotal opts sel) /\
  has_sign false (customPrice opts sel) /\
  customPrice opts sel <> S754_nan.
Proof.
  intros Hok. pose proof (customTotal_sign opts sel Hok) as Ht.
  pose proof (round2_sign _ Ht) as Hp. fold (customPrice opts sel) in Hp.
  repeat split; try done. intros Hnan. by rewrite Hnan in Hp.
Qed.

(** X11: when the two conversion factors are positive finite numbers, as
    the defaults 83 and 0.20 are, the amount [payNow] posts for a cart of
    well-formed lines is never NaN and never negative. *)
Theorem checkout_amount_nonneg (env : ImportMetaEnv) (a : Address)
    (c : list CartLine) :
  is_positive (USD_TO_INR env) -> is_positive (MARKET_ADJ env) ->
  Forall Spec.line_ok c ->
  has_sign false (req_amount (checkoutRequest env a c)) /\
  req_amount (checkoutRequest env a c) <> S754_nan.
Proof.
  intros Hu Hm Hc.
  assert (H : has_sign false (req_amount (checkoutRequest env a c))).
  { cbn [checkoutRequest req_amount]. unfold inrNumber, adjToINR.
    rewrite cartUsdTotal_cartTotal, or_zero_sign by (by apply cartTotal_sign).
    repeat apply mul_sign_any; try done. by apply cartTotal_sign. }
  split; [exact H|]. intros Hnan. by rewrite Hnan in H.
Qed.

(** ** Whole runs of [payNow] *)

Lemma beforeGateway_keeps (env : ImportMetaEnv) (w : World) (st : AppState) :
  match beforeGateway env w st with
  | Stopped st1 _ =>
      cart st1 = cart st /\ addr st1 = addr st /\ payResult st1 = payResult st
  | AtGateway st1 _ _ =>
      cart st1 = cart st /\ addr st1 = addr st /\ payResult st1 = payResult st
  end.
Proof.
  unfold beforeGateway.
  set (st0 := if negb (sdkReady st) || negb (cashfreeRef st) then _ else st).
  assert (H0 : cart st0 = cart st /\ addr st0 = addr st /\
               payResult st0 = payResult st).
  { subst st0. destruct (negb _ || negb _); [|done]. by destruct (w_load w). }
  destruct (w_checkout w) as [[init|]|]; try done.
  destruct (is_truthy _); try done.
  destruct (or_else (init_orderId init) _) as [o|]; try done.
  destruct (truthy_str o); try done.
  by destruct (negb (cashfreeRef st0)).
Qed.

(** X12: a run of [payNow] either leaves the cart as it was or empties it,
    and it empties it only when the run reached the hosted checkout, that
    returned without error, and the verification reported success; the
    delivery address is never changed and [placing] is off at the end. *)
Theorem payNow_cart (env : ImportMetaEnv) (w : World) (st : AppState) :
  let st' := fst (payNow env w st) in
  addr st' = addr st /\ placing st' = false /\
  (cart st' = cart st \/
   cart st' = [] /\ w_gateway w = Resolved None /\
   w_verify w = Resolved (Some true) /\
   exists st1 effs oid, beforeGateway env w st = AtGateway st1 effs oid).
Proof.
  intros st'. subst st'. unfold payNow.
  pose proof (beforeGateway_keeps env w st) as Hk.
  destruct (beforeGateway env w st) as [st1 effs|st1 effs oid] eqn:Hb;
    destruct Hk as (Hc & Ha & _).
  - simpl. auto.
  - destruct (w_gateway w) as [[err|]|]; simpl; auto.
    destruct (w_verify w) as [[[]|]|]; simpl; auto.
    split; [done|]. split; [done|]. right. repeat split; eauto.
Qed.

(** X13: a run of [payNow] records a payment result only when the hosted
    checkout returned; then the result carries the order id of the checkout
    answer and is "success" exactly when there was no gateway error and the
    verification reported success, "error" otherwise.  A run that stops
    earlier, or whose hosted checkout throws, leaves the result as it
    was. *)
Theorem payNow_result (env : ImportMetaEnv) (w : World) (st : AppState) :
  let st' := fst (payNow env w st) in
  match beforeGateway env w st, w_gateway w with
  | AtGateway _ _ oid, Resolved err =>
      payResult st'
      = {| status := match err, w_verify w with
                     | None, Resolved (Some true) => "success"
                     | _, _ => "error"
                     end;
           orderId := oid |}
  | _, _ => payResult st' = payResult st
  end.
Proof.
  intros st'. subst st'. unfold payNow.
  pose proof (beforeGateway_keeps env w st) as Hk.
  destruct (beforeGateway env w st) as [st1 effs|st1 effs oid] eqn:Hb;
    destruct Hk as (_ & _ & Hp).
  - by destruct (w_gateway w).
  - destruct (w_gateway w) as [[err|]|]; simpl; [done| |done].
    by destruct (w_verify w) as [[[]|]|].
Qed.

(** X14: when the checkout answer lacks a session id or an order id, the
    run stops after the post: no hosted checkout and no verification
    happen, the cart and the result stay, and the user is sent to the
    hosted checkout URL if the answer has one, else to the payment link if
    it has one, else told that the ids are missing. *)
Theorem payNow_missing_ids (env : ImportMetaEnv) (w : World) (st : AppState)
    (init : CheckoutInit) :
  w_checkout w = Resolved (Some init) ->
  is_truthy (sessionIdOf init) = false \/ is_truthy (orderIdOf init) = false ->
  let st' := fst (payNow env w st) in
  cart st' = cart st /\ payResult st' = payResult st /\
  snd (payNow env w st)
  = [Post (checkoutRequest env (addr st) (cart st));
     match hostedCheckoutUrl init, paymentLink init with
     | Some u, l =>
         if truthy_str u then Redirect u
         else match l with
              | Some u' =>
                  if truthy_str u' then Redirect u'
                  else Alert "Missing payment_session_id or order_id"
              | None => Alert "Missing payment_session_id or order_id"
              end
     | None, Some u' =>
         if truthy_str u' then Redirect u'
         else Alert "Missing payment_session_id or order_id"
     | None, None => Alert "Missing payment_session_id or order_id"
     end].
Proof.
  intros Hinit Hmiss st'. subst st'.
  assert (Hfb : fallback init "Missing payment_session_id or order_id"
                = match hostedCheckoutUrl init, paymentLink init with
                  | Some u, l =>
                      if truthy_str u then Redirect u
                      else match l with
                           | Some u' =>
                               if truthy_str u' then Redirect u'
                               else Alert "Missing payment_session_id or order_id"
                           | None => Alert "Missing payment_session_id or order_id"
                           end
                  | None, Some u' =>
                      if truthy_str u' then Redirect u'
                      else Alert "Missing payment_session_id or order_id"
                  | None, None => Alert "Missing payment_session_id or order_id"
                  end).
  { unfold fallback, or_else.
    destruct (hostedCheckoutUrl init) as [u|], (paymentLink init) as [u'|];
      try destruct (truthy_str u); try destruct (truthy_str u'); done. }
  rewrite <- Hfb. clear Hfb.
  unfold payNow, beforeGateway. rewrite Hinit.
  set (st0 := if negb (sdkReady st) || negb (cashfreeRef st) then _ else st).
  assert (H0 : cart st0 = cart st /\ addr st0 = addr st /\
               payResult st0 = payResult st).
  { subst st0. destruct (negb _ || negb _); [|done]. by destruct (w_load w). }
  destruct H0 as (Hc & Ha & Hp). rewrite Hc, Ha.
  fold (sessionIdOf init). fold (orderIdOf init).
  destruct Hmiss as [Hs|Ho].
  - rewrite Hs. by destruct (orderIdOf init).
  - destruct (is_truthy (sessionIdOf init)); [|by destruct (orderIdOf init)].
    destruct (orderIdOf init) as [o|]; [|done].
    simpl in Ho. by rewrite Ho.
Qed.

(** ** The pay-callback page *)

(** X15: the pay-callback page shows success exactly when the order id is
    present in the query and the verification reports success, and then
    closing leads to the orders page, otherwise to the menu; for a present
    order id its verdict is the one [payNow] records for the same
    verification answer. *)
Theorem payCallback_verdict (order_id : option string)
    (verify : Settled (option bool)) (w : World) (st : AppState) :
  (status (payCallback order_id verify) = "success" <->
   is_truthy order_id = true /\ verify = Resolved (Some true)) /\
  (payCallbackClose (payCallback order_id verify) = "/orders" <->
   status (payCallback order_id verify) = "success") /\
  (forall oid, order_id = Some oid -> oid <> "" -> w_verify w = verify ->
               payCallback order_id verify
               = payResult (fst (reconcile w oid None st))).
Proof.
  assert (Hnone : payCallback None verify = {| status := "error"; orderId := "" |})
    by reflexivity.
  assert (Hsome : forall o, payCallback (Some o) verify
                  = if truthy_str o
                    then match verify with
                         | Resolved (Some true) =>
                             {| status := "success"; orderId := o |}
                         | _ => {| status := "error"; orderId := o |}
                         end
                    else {| status := "error"; orderId := "" |}).
  { intros o. unfold payCallback, or_str.
    destruct (truthy_str o) eqn:Ho; [rewrite Ho|]; simpl; [|done].
    by destruct verify as [[[]|]|]. }
  split; [|split].
  - split.
    + intros H. destruct order_id as [o|]; [|by rewrite Hnone in H].
      rewrite Hsome in H. simpl. destruct (truthy_str o); [|done].
      by destruct verify as [[[]|]|].
    + intros [Ho ->]. destruct order_id as [o|]; [|done].
      rewrite Hsome. simpl in Ho. by rewrite Ho.
  - unfold payCallbackClose. case_bool_decide; split; done.
  - intros oid -> Hoid <-. rewrite Hsome.
    assert (Ht : truthy_str oid = true) by (by apply truthy_str_iff).
    rewrite Ht. unfold reconcile. by destruct (w_verify w) as [[[]|]|].
Qed.

(** ** The carousel *)

Lemma carouselTick_iter (n idx : Z) (k : nat) :
  1 < n -> 0 <= idx < n ->
  Nat.iter k (carouselTick n) idx = (idx + Z.of_nat k) mod n.
Proof.
  intros Hn Hidx. induction k as [|k IH].
  - simpl. rewrite Z.add_0_r. by rewrite Z.mod_small.
  - rewrite Nat.iter_succ, IH. unfold carouselTick.
    destruct (Z.leb_spec n 1); [lia|].
    pose proof (Z.mod_pos_bound (idx + Z.of_nat k) n ltac:(lia)).
    rewrite Z.rem_mod_nonneg by lia.
    rewrite Zplus_mod_idemp_l. f_equal. lia.
Qed.

(** X16: while the carousel runs (more than one slide), the index stays
    within the slides, each tick moves to the next slide and the last one
    wraps to the first, and after as many ticks as there are slides the
    carousel shows the slide it started from. *)
Theorem carousel_cycle (n idx : Z) :
  1 < n -> 0 <= idx < n ->
  0 <= carouselTick n idx < n /\
  carouselTick n idx = (if idx =? n - 1 then 0 else idx + 1) /\
  Nat.iter (Z.to_nat n) (carouselTick n) idx = idx.
Proof.
  intros Hn Hidx.
  assert (H : carouselTick n idx = (idx + 1) mod n).
  { unfold carouselTick. destruct (Z.leb_spec n 1); [lia|].
    apply Z.rem_mod_nonneg; lia. }
  split; [|split].
  - rewrite H. apply Z.mod_pos_bound. lia.
  - rewrite H. destruct (Z.eqb_spec idx (n - 1)) as [->|Hne].
    + replace (n - 1 + 1) with n by lia. apply Z_mod_same_full.
    + apply Z.mod_small. lia.
  - rewrite carouselTick_iter by done. rewrite Z2Nat.id by lia.
    rewrite <- (Z.mul_1_l n) at 1. rewrite Z_mod_plus_full.
    apply Z.mod_small. lia.
Qed.

Lemma carousel_cycle_witness :
  1 < 5 /\ 0 <= 3 < 5 /\
  Nat.iter (Z.to_nat 5) (carouselTick 5) 3 = 3.
Proof.
  split; [lia|]. split; [lia|].
  apply (carousel_cycle 5 3); lia.
Defined.

Lemma carousel_rel (n idx k : Z) :
  0 < n -> 0 <= idx < n -> 0 <= k < n ->
  Z.rem (k - idx + n) n = (if idx <=? k then k - idx else k - idx + n).
Proof.
  intros Hn Hidx Hk. rewrite Z.rem_mod_nonneg by lia.
  destruct (Z.leb_spec idx k).
  - rewrite <- (Z.mul_1_l n) at 1. rewrite Z_mod_plus_full.
    apply Z.mod_small. lia.
  - apply Z.mod_small. lia.
Qed.

(** X17: with three or more slides, the slide at the centre is the current
    one, the slide at the right is the next one and the slide at the left
    the previous one, both around the end, and every other slide is not
    rendered. *)
Theorem carousel_three_visible (n idx k : Z) :
  3 <= n -> 0 <= idx < n -> 0 <= k < n ->
  (carouselPos n idx k = 0 <-> k = idx) /\
  (carouselPos n idx k = 1 <-> k = (idx + 1) mod n) /\
  (carouselPos n idx k = -1 <-> k = (idx - 1) mod n) /\
  (carouselPos n idx k = 9 <->
   k <> idx /\ k <> (idx + 1) mod n /\ k <> (idx - 1) mod n).
Proof.
  intros Hn Hidx Hk. unfold carouselPos.
  rewrite carousel_rel by lia.
  assert (Hnext : (idx + 1) mod n = if idx =? n - 1 then 0 else idx + 1).
  { destruct (Z.eqb_spec idx (n - 1)) as [->|?].
    - replace (n - 1 + 1) with n by lia. apply Z_mod_same_full.
    - apply Z.mod_small. lia. }
  assert (Hprev : (idx - 1) mod n = if idx =? 0 then n - 1 else idx - 1).
  { destruct (Z.eqb_spec idx 0) as [->|?].
    - replace (0 - 1) with (n - 1 + -1 * n) by lia. rewrite Z_mod_plus_full.
      apply Z.mod_small. lia.
    - apply Z.mod_small. lia. }
  rewrite Hnext, Hprev.
  destruct (Z.leb_spec idx k), (Z.eqb_spec idx (n - 1)), (Z.eqb_spec idx 0);
    repeat match goal with
           | |- context [?a =? ?b] => destruct (Z.eqb_spec a b)
           end; lia.
Qed.

Lemma carousel_three_visible_witness :
  3 <= 5 /\ 0 <= 4 < 5 /\ 0 <= 0 < 5 /\
  (carouselPos 5 4 0 = 1 <-> 0 = (4 + 1) mod 5).
Proof.
  split; [lia|]. split; [lia|]. split; [lia|].
  apply (carousel_three_visible 5 4 0); lia.
Defined.

(** X18: with exactly two slides, the slide that is not current is always
    rendered at the right and never at the left. *)
Theorem carousel_two_slides (idx k : Z) :
  0 <= idx < 2 -> 0 <= k < 2 ->
  carouselPos 2 idx k = (if k =? idx then 0 else 1) /\
  carouselPos 2 idx k <> -1.
Proof.
  intros Hidx Hk.
  assert (idx = 0 \/ idx = 1) as [->| ->] by lia;
    assert (k = 0 \/ k = 1) as [->| ->] by lia; by vm_compute.
Qed.

Lemma carousel_two_slides_witness :
  0 <= 1 < 2 /\ 0 <= 0 < 2 /\ carouselPos 2 1 0 <> -1.
Proof.
  split; [lia|]. split; [lia|].
  apply (carousel_two_slides 1 0); lia.
Defined.

(** ** The server's middleware *)

Lemma splitComma_piece (o rest : string) :
  comma_free o ->
  splitComma (String.append o (String.append "," rest)) = o :: splitComma rest.
Proof.
  induction o as [|c o IH]; simpl; intros Hc.
  - reflexivity.
  - destruct Hc as [Hc Ho]. rewrite Hc. simpl in IH. rewrite IH by done.
    reflexivity.
Qed.

Lemma splitComma_last (o : string) :
  comma_free o -> splitComma o = [o].
Proof.
  induction o as [|c o IH]; simpl; intros Hc.
  - reflexivity.
  - destruct Hc as [Hc Ho]. rewrite Hc, IH by done. reflexivity.
Qed.

Lemma splitComma_lead_space (s : string) :
  splitComma (String.append " " s)
  = match splitComma s with
    | p :: ps => String.append " " p :: ps
    | [] => [" "]
    end.
Proof. reflexivity. Qed.

Lemma splitComma_concat (o : string) (os : list string) :
  Forall comma_free (o :: os) ->
  splitComma (String.concat ", " (o :: os))
  = o :: map (String.append " ") os.
Proof.
  revert o. induction os as [|o' os IH]; intros o Hall.
  - simpl. apply splitComma_last. by apply Forall_cons in Hall as [? _].
  - apply Forall_cons in Hall as [Ho Hrest].
    change (String.concat ", " (o :: o' :: os))
      with (String.append o
              (String.append ","
                 (String.append " " (String.concat ", " (o' :: os))))).
    rewrite splitComma_piece by done. f_equal.
    rewrite splitComma_lead_space, IH by done. reflexivity.
Qed.

Lemma splitComma_concat_plain (o : string) (os : list string) :
  Forall comma_free (o :: os) ->
  splitComma (String.concat "," (o :: os)) = o :: os.
Proof.
  revert o. induction os as [|o' os IH]; intros o Hall.
  - simpl. apply splitComma_last. by apply Forall_cons in Hall as [? _].
  - apply Forall_cons in Hall as [Ho Hrest].
    change (String.concat "," (o :: o' :: os))
      with (String.append o
              (String.append "," (String.concat "," (o' :: os)))).
    rewrite splitComma_piece by done. f_equal. by apply IH.
Qed.

Lemma trim_lead_space (s : string) : trim (String.append " " s) = trim s.
Proof. reflexivity. Qed.

Lemma trim_spaced (xs : list string) :
  Forall (fun x => trim x = x) xs ->
  map trim (map (String.append " ") xs) = xs.
Proof.
  induction 1 as [|x xs Hx _ IH]; [done|].
  cbn [map]. by rewrite trim_lead_space, Hx, IH.
Qed.

Lemma concat_nonempty (sep o : string) (os : list string) :
  o <> "" -> String.concat sep (o :: os) <> "".
Proof.
  intros Ho. destruct os; simpl; [done|]. by destruct o.
Qed.

(** X19: when [CLIENT_ORIGIN] lists origins separated by a comma, or by
    a comma and a space, each of them without comma and without white
    space around it, [allowedOrigins] is exactly that list, in order; when
    the variable is unset or empty it is the two development origins. *)
Theorem allowedOrigins_roundtrip (o : string) (os : list string) :
  o <> "" -> Forall comma_free (o :: os) ->
  Forall (fun x => trim x = x) (o :: os) ->
  allowedOrigins (Some (String.concat "," (o :: os))) = o :: os /\
  allowedOrigins (Some (String.concat ", " (o :: os))) = o :: os /\
  allowedOrigins None = ["http://localhost:5173"; "http://127.0.0.1:5173"] /\
  allowedOrigins (Some "") = allowedOrigins None.
Proof.
  intros Ho Hc Ht. split; [|split; [|split; reflexivity]].
  - unfold allowedOrigins, or_str.
    assert (Htr : truthy_str (String.concat "," (o :: os)) = true)
      by (by apply truthy_str_iff, concat_nonempty).
    rewrite Htr, splitComma_concat_plain by done.
    clear Hc Htr. induction Ht as [|x xs Hx _ IH]; [done|].
    cbn [map]. by rewrite Hx, IH.
  - unfold allowedOrigins, or_str.
    assert (Htr : truthy_str (String.concat ", " (o :: os)) = true)
      by (by apply truthy_str_iff, concat_nonempty).
    rewrite Htr, splitComma_concat by done.
    apply Forall_cons in Ht as [Hto Htos]. cbn [map]. rewrite Hto. f_equal.
    by apply trim_spaced.
Qed.

(** X20: the CORS callback refuses a request only in production, only
    when it carries an Origin header, and only when that origin is not in
    the allowed list; a request without Origin header, and any request
    outside production, is let through. *)
Theorem corsOrigin_refuses (NODE_ENV : option string) (allowed : list string)
    (origin : option string) :
  (corsOrigin NODE_ENV allowed origin = CorsError "Not allowed by CORS" <->
   NODE_ENV = Some "production" /\
   exists o, origin = Some o /\ o <> "" /\ o ∉ allowed) /\
  (corsOrigin NODE_ENV allowed origin = CorsAllow \/
   corsOrigin NODE_ENV allowed origin = CorsError "Not allowed by CORS").
Proof.
  unfold corsOrigin, is_truthy.
  destruct origin as [o|]; simpl.
  2:{ split; [|by left]. split; [done|]. by intros (_ & o & ? & _). }
  destruct (truthy_str o) eqn:Ho; simpl.
  2:{ split; [|by left]. split; [done|].
      intros (_ & o' & [= <-] & Hne & _).
      apply truthy_str_iff in Hne. congruence. }
  apply truthy_str_iff in Ho.
  case_bool_decide as Henv; simpl.
  2:{ split; [|by left]. split; [done|]. by intros [? _]. }
  case_bool_decide as Hin.
  - split; [|by left]. split; [done|].
    intros (_ & o' & [= <-] & _ & Hnot). exfalso. apply Hnot.
    apply Exists_exists in Hin as (a & Ha & [= ->]). done.
  - split; [|by right]. split; [|done]. intros _. split; [done|].
    exists o. repeat split; [done|]. intros Hmem. apply Hin.
    apply Exists_exists. by exists o.
Qed.

(** X21: the global error handler answers a validation error with 400 and
    does not log it, whatever status code the error carries; any other
    error gets its own status code, or 500 when it has none (or 0); the
    error is logged exactly when the status is 500 or more; and the message
    sent is never empty. *)
Theorem errorHandler_response (err : JsError) :
  (err_name err = Some "ValidationError" ->
   res_status (errorHandler err) = 400 /\ res_logged (errorHandler err) = false) /\
  (err_name err <> Some "ValidationError" ->
   res_status (errorHandler err)
   = match err_statusCode err with
     | Some c => if c =? 0 then 500 else c
     | None => 500
     end) /\
  res_status (errorHandler err) <> 0 /\
  (res_logged (errorHandler err) = true <-> 500 <= res_status (errorHandler err)) /\
  res_message (errorHandler err) <> "".
Proof.
  unfold errorHandler. cbn [res_status res_logged res_message].
  split; [|split; [|split; [|split]]].
  - intros ->. by rewrite bool_decide_eq_true_2.
  - intros Hn. by rewrite bool_decide_eq_false_2.
  - case_bool_decide; [done|].
    destruct (err_statusCode err) as [c|]; [|done].
    destruct (Z.eqb_spec c 0); done.
  - apply Z.leb_le.
  - unfold or_str. destruct (err_message err) as [m|].
    + destruct (truthy_str m) eqn:Hm; [by apply truthy_str_iff|].
      by case_bool_decide.
    + by case_bool_decide.
Qed.

(** ** Editing and saving the variant inventory *)

Lemma rowsOf_setRows (k k' : KeyName) (arr : list InventoryRow)
    (inv : VariantInventory) :
  rowsOf k' (setRows k arr inv) = if decide (k = k') then arr else rowsOf k' inv.
Proof. by destruct k, k'. Qed.

Lemma tableEdit_rowKeys (vEdit : VariantInventory) (e : TableEdit)
    (k : KeyName) :
  rowKeys (rowsOf k (tableEdit vEdit e)) = rowKeys (rowsOf k vEdit).
Proof.
  destruct e as [k' i v|k' i v]; cbn [tableEdit];
    destruct (rowsOf k' vEdit !! i) as [r|] eqn:Hr; try done;
    rewrite rowsOf_setRows; case_decide as Hk; try done; subst k';
    unfold rowKeys; rewrite list_fmap_insert; apply list_insert_id;
    by rewrite list_lookup_fmap, Hr.
Qed.

Lemma editedInventory_rowKeys (data : VariantInventory)
    (edits : list TableEdit) (k : KeyName) :
  rowKeys (rowsOf k (editedInventory data edits))
  = rowKeys (rowsOf k (scrubbed data)).
Proof.
  unfold editedInventory. generalize (scrubbed data).
  induction edits as [|e edits IH]; intros inv; [done|].
  simpl. by rewrite IH, tableEdit_rowKeys.
Qed.

(** X22: whatever the admin edits in the tables after a load, the body
    that is saved lists, table by table, exactly the rows that were loaded,
    with their ids and in their order: no row is added, dropped or moved,
    and since the cheese table was loaded without the vegan rows, none of
    them is ever saved. *)
Theorem save_keeps_rows (data : VariantInventory) (edits : list TableEdit) :
  let payload := savePayload (editedInventory data edits) in
  map saved_id (saved_bases payload) = map row_id (inv_bases data) /\
  map saved_id (saved_sauces payload) = map row_id (inv_sauces data) /\
  map saved_id (saved_veggies payload) = map row_id (inv_veggies data) /\
  map saved_id (saved_cheeses payload)
  = map row_id (inv_cheeses (scrubbed data)) /\
  Forall (fun i => ~ Spec.contains_ci "vegan" i)
         (map saved_id (saved_cheeses payload)).
Proof.
  intros payload. subst payload.
  assert (Hids : forall k,
             map saved_id (map toSaved (rowsOf k (editedInventory data edits)))
             = map row_id (rowsOf k (scrubbed data))).
  { intros k. pose proof (editedInventory_rowKeys data edits k) as H.
    apply (f_equal (map fst)) in H. unfold rowKeys in H.
    rewrite !map_map in H. simpl in H. rewrite map_map. exact H. }
  cbn [savePayload saved_bases saved_sauces saved_cheeses saved_veggies].
  split; [exact (Hids KeyBases)|]. split; [exact (Hids KeySauces)|].
  split; [exact (Hids KeyVeggies)|]. split; [exact (Hids KeyCheeses)|].
  pose proof (Hids KeyCheeses) as Hc. cbn [rowsOf] in Hc. rewrite Hc.
  apply Forall_map.
  eapply Forall_impl; [apply scrubbed_cheeses|]. by intros r [? _].
Qed.

(** ** The address form *)

Lemma trimEnd_idem (s : string) : trimEnd (trimEnd s) = trimEnd s.
Proof.
  induction s as [|c s IH]; [done|]. cbn [trimEnd].
  destruct (trimEnd s) as [|c' s'] eqn:Hs.
  - destruct (is_space c) eqn:Hc; [done|]. cbn [trimEnd]. by rewrite Hc.
  - cbn [trimEnd]. cbn [trimEnd] in IH. rewrite IH. 
    by destruct (match trimEnd s' with EmptyString => _ | String a b => _ end).
Qed.

Lemma trimStart_head (s : string) :
  match trimStart s with
  | EmptyString => True
  | String c _ => is_space c = false
  end.
Proof.
  induction s as [|c s IH]; [done|]. simpl.
  destruct (is_space c) eqn:Hc; [exact IH|done].
Qed.

Lemma trimEnd_head (c : Ascii.ascii) (s : string) :
  is_space c = false ->
  exists r, trimEnd (String c s) = String c r.
Proof.
  intros Hc. cbn [trimEnd]. destruct (trimEnd s); rewrite ?Hc; eauto.
Qed.

Lemma trim_idem (s : string) : trim (trim s) = trim s.
Proof.
  unfold trim. pose proof (trimStart_head s) as Hh.
  destruct (trimStart s) as [|c r] eqn:Hs; [done|].
  destruct (trimEnd_head c r Hh) as [r' Hr]. rewrite Hr.
  cbn [trimStart]. rewrite Hh, <- Hr. apply trimEnd_idem.
Qed.

(** X24: whether an address is accepted depends only on its fields with
    the white space around them removed: the address and its trimmed form
    are accepted or refused together. *)
Theorem isAddressValid_trimmed (a : Address) :
  isAddressValid (trimAddress a) = isAddressValid a.
Proof.
  unfold isAddressValid, validName, validStreet, validCity, validState,
    validZip, validPhone. cbn [trimAddress addr_name addr_street addr_city
    addr_state addr_zip addr_phone]. by rewrite !trim_idem.
Qed.

Lemma digit_bounds (c : Ascii.ascii) (lo hi : N) :
  code_in lo hi c = true ->
  Z.of_N lo <= Z.of_N (Ascii.N_of_ascii c) <= Z.of_N hi.
Proof.
  unfold code_in. intros [H1 H2]%andb_true_iff.
  apply N.leb_le in H1, H2. lia.
Qed.

Ltac digits_step H :=
  match type of H with
  | all_digits (String ?c ?r) = true =>
      let Hc := fresh "Hc" in
      cbn [all_digits] in H; apply andb_true_iff in H as [Hc H];
      apply (digit_bounds _ 48 57) in Hc
  end.

Lemma testZip_value (s : string) :
  testZip s = true ->
  String.length s = 6%nat /\ 100000 <= digitsValue s <= 999999.
Proof.
  destruct s as [|c0 s]; [done|]. cbn [testZip].
  intros [[H0 Hl]%andb_true_iff Hd]%andb_true_iff.
  apply (digit_bounds _ 49 57) in H0. apply Nat.eqb_eq in Hl.
  do 5 (destruct s as [|? s]; [done|]; digits_step Hd).
  destruct s; [|done]. split; [done|].
  unfold digitsValue. cbn [digitsValueFrom]. lia.
Qed.

Lemma testPhone_value (s : string) :
  testPhone s = true ->
  String.length s = 10%nat /\ 6000000000 <= digitsValue s <= 9999999999.
Proof.
  destruct s as [|c0 s]; [done|]. cbn [testPhone].
  intros [[H0 Hl]%andb_true_iff Hd]%andb_true_iff.
  apply (digit_bounds _ 54 57) in H0. apply Nat.eqb_eq in Hl.
  do 9 (destruct s as [|? s]; [done|]; digits_step Hd).
  destruct s; [|done]. split; [done|].
  unfold digitsValue. cbn [digitsValueFrom]. lia.
Qed.

(** X23: in an accepted address, once the white space around the fields is
    removed, the name, city and state have at least 2 characters and the
    street at least 5, the PIN code is six digits that write a number from
    100000 to 999999, and the phone is ten digits that write a number from
    6000000000 to 9999999999. *)
Theorem isAddressValid_fields (a : Address) :
  isAddressValid a = true ->
  (2 <= String.length (trim (addr_name a)))%nat /\
  (5 <= String.length (trim (addr_street a)))%nat /\
  (2 <= String.length (trim (addr_city a)))%nat /\
  (2 <= String.length (trim (addr_state a)))%nat /\
  (String.length (trim (addr_zip a)) = 6%nat /\
   100000 <= digitsValue (trim (addr_zip a)) <= 999999) /\
  (String.length (trim (addr_phone a)) = 10%nat /\
   6000000000 <= digitsValue (trim (addr_phone a)) <= 9999999999).
Proof.
  unfold isAddressValid. rewrite !andb_true_iff.
  intros [[[[[Hn Hs] Hc] Hst] Hz] Hp].
  unfold validName, validStreet, validCity, validState in *.
  apply Nat.leb_le in Hn, Hs, Hc, Hst.
  destruct (testZip_value _ Hz) as [? [? ?]].
  destruct (testPhone_value _ Hp) as [? [? ?]].
  repeat split; done.
Qed.

Lemma reconcile_no_post (w : World) (oid : string) (err : option string)
    (st : AppState) :
  Forall (fun e => is_post e = false) (snd (reconcile w oid err st)).
Proof.
  unfold reconcile. destruct err; [constructor|].
  destruct (w_verify w) as [[[]|]|]; repeat constructor.
Qed.

Lemma fallback_no_post (init : CheckoutInit) (msg : string) :
  is_post (fallback init msg) = false.
Proof.
  unfold fallback. destruct (or_else (hostedCheckoutUrl init) None); [done|].
  by destruct (or_else (paymentLink init) None).
Qed.

Lemma payNow_one_post (env : ImportMetaEnv) (w : World) (st : AppState) :
  exists rest,
    snd (payNow env w st)
    = Post (checkoutRequest env (addr st) (cart st)) :: rest /\
    Forall (fun e => is_post e = false) rest.
Proof.
  unfold payNow, beforeGateway.
  set (st1 := if negb (sdkReady st) || negb (cashfreeRef st) then _ else st).
  assert (H1 : addr st1 = addr st /\ cart st1 = cart st).
  { subst st1. destruct (negb _ || negb _); [|done]. by destruct (w_load w). }
  destruct H1 as [-> ->].
  pose proof fallback_no_post as Hfb.
  destruct (w_checkout w) as [[init|]|]; simpl;
    [|eexists; split; [done|repeat constructor]..].
  destruct (is_truthy _); simpl;
    [|eexists; split; [done|by repeat constructor]].
  destruct (or_else (init_orderId init) _) as [o|]; simpl;
    [|eexists; split; [done|by repeat constructor]].
  destruct (truthy_str o); simpl;
    [|eexists; split; [done|by repeat constructor]].
  destruct (negb (cashfreeRef st1)); simpl;
    [eexists; split; [done|by repeat constructor]|].
  destruct (w_gateway w) as [g|]; simpl;
    [|eexists; split; [done|repeat constructor]].
  pose proof (reconcile_no_post w o g (set_placing st1 true)) as Hr.
  destruct (reconcile w o g _) as [st2 effs2]. simpl in *. eauto.
Qed.

(** X25: submitting the address form with an address that is not accepted
    runs nothing: no request is posted.  With an accepted address one
    request is posted, before anything else, and it carries the address
    line and the cart of that moment; no second request follows. *)
Theorem submitAddress_posts (env : ImportMetaEnv) (w : World) (st : AppState) :
  match submitAddress env w st with
  | MarkedTouched => isAddressValid (addr st) = false
  | Paid _ effs =>
      isAddressValid (addr st) = true /\
      exists rest,
        effs = Post (checkoutRequest env (addr st) (cart st)) :: rest /\
        Forall (fun e => is_post e = false) rest
  end.
Proof.
  unfold submitAddress. destruct (isAddressValid (addr st)); simpl; [|done].
  pose proof (payNow_one_post env w st) as H.
  destruct (payNow env w st) as [st' effs]. by split.
Qed.

(** ** The theorems at the sample data *)

Lemma sample_unique_ids :
  unique_ids (bases Sample.opts) /\ unique_ids (sauces Sample.opts) /\
  unique_ids (cheeses Sample.opts).
Proof.
  unfold unique_ids. simpl.
  repeat split; repeat (apply NoDup_cons; split;
    [rewrite ?elem_of_cons, elem_of_nil; intros H; intuition discriminate|]);
    apply NoDup_nil_2.
Defined.

Lemma builder_gate_three_slots_witness :
  unique_ids (bases Sample.opts) /\ unique_ids (sauces Sample.opts) /\
  unique_ids (cheeses Sample.opts) /\
  selectedDisabled Sample.opts (builderRun Sample.opts Demo.clicks) = false.
Proof.
  destruct sample_unique_ids as (Hb & Hs & Hc).
  split; [exact Hb|]. split; [exact Hs|]. split; [exact Hc|].
  exact (proj1 (builder_gate_three_slots Sample.opts Demo.clicks Hb Hs Hc)).
Defined.

Lemma builder_veggie_twice_witness :
  veggies Sample.opts !! 0%nat = Some Demo.capsicum /\
  (id Demo.capsicum ∉ sel_veggies (builderRun Sample.opts [])) /\
  builderRun Sample.opts ([] ++ [ClickVeggie 0; ClickVeggie 0])
  = builderRun Sample.opts [].
Proof.
  assert (H1 : veggies Sample.opts !! 0%nat = Some Demo.capsicum)
    by reflexivity.
  assert (H2 : id Demo.capsicum ∉ sel_veggies (builderRun Sample.opts []))
    by (simpl; apply not_elem_of_nil).
  split; [exact H1|]. split; [exact H2|].
  exact (builder_veggie_twice Sample.opts [] 0 Demo.capsicum H1 H2).
Defined.

Lemma toggleVeg_adds_price_witness :
  Js.find (fun v => bool_decide (id v = "capsicum")) (veggies Sample.opts)
  = Some Demo.capsicum /\
  disabled Demo.capsicum = false /\
  ("capsicum" ∉ sel_veggies Sample.sel) /\
  vegTotal Sample.opts (toggleVeg Sample.opts "capsicum" Sample.sel)
  = add (vegTotal Sample.opts Sample.sel)
        (mul (findPrice (veggies Sample.opts) "capsicum") (of_Z 2)).
Proof.
  assert (H1 : Js.find (fun v => bool_decide (id v = "capsicum"))
                 (veggies Sample.opts) = Some Demo.capsicum) by reflexivity.
  assert (H2 : disabled Demo.capsicum = false) by reflexivity.
  assert (H3 : "capsicum" ∉ sel_veggies Sample.sel)
    by (simpl; apply not_elem_of_nil).
  split; [exact H1|]. split; [exact H2|]. split; [exact H3|].
  exact (toggleVeg_adds_price Sample.opts "capsicum" Sample.sel Demo.capsicum
           H1 H2 H3).
Defined.

Lemma sample_catalog_amounts : catalog_amounts Sample.opts.
Proof. unfold catalog_amounts; simpl; repeat constructor. Defined.

Lemma customPrice_nonneg_witness :
  catalog_amounts Sample.opts /\
  customPrice Sample.opts Sample.selExtra <> S754_nan.
Proof.
  split; [exact sample_catalog_amounts|].
  exact (proj2 (proj2 (customPrice_nonneg Sample.opts Sample.selExtra
                         sample_catalog_amounts))).
Defined.

Lemma sample_factors_positive :
  is_positive (USD_TO_INR Sample.env) /\ is_positive (MARKET_ADJ Sample.env).
Proof. split; vm_compute; eauto. Defined.

Lemma checkout_amount_nonneg_witness :
  is_positive (USD_TO_INR Sample.env) /\ is_positive (MARKET_ADJ Sample.env) /\
  Forall Spec.line_ok Sample.lines /\
  req_amount (checkoutRequest Sample.env Sample.address Sample.lines)
  <> S754_nan.
Proof.
  destruct sample_factors_positive as [Hu Hm].
  split; [exact Hu|]. split; [exact Hm|]. split; [exact sample_lines_ok|].
  exact (proj2 (checkout_amount_nonneg Sample.env Sample.address Sample.lines
                  Hu Hm sample_lines_ok)).
Defined.

Lemma payNow_missing_ids_witness :
  w_checkout Demo.worldNoSession = Resolved (Some Demo.initNoSession) /\
  (is_truthy (sessionIdOf Demo.initNoSession) = false \/
   is_truthy (orderIdOf Demo.initNoSession) = false) /\
  snd (payNow Sample.env Demo.worldNoSession Sample.state)
  = [Post (checkoutRequest Sample.env Sample.address Sample.lines);
     Redirect "https://pay.example/checkout"].
Proof.
  assert (H1 : w_checkout Demo.worldNoSession
               = Resolved (Some Demo.initNoSession)) by reflexivity.
  assert (H2 : is_truthy (sessionIdOf Demo.initNoSession) = false \/
               is_truthy (orderIdOf Demo.initNoSession) = false)
    by (left; reflexivity).
  split; [exact H1|]. split; [exact H2|].
  exact (proj2 (proj2 (payNow_missing_ids Sample.env Demo.worldNoSession
                         Sample.state Demo.initNoSession H1 H2))).
Defined.

Lemma allowedOrigins_roundtrip_witness :
  "https://pizza.example" <> "" /\
  Forall comma_free Demo.origins /\
  Forall (fun x => trim x = x) Demo.origins /\
  allowedOrigins (Some "https://pizza.example, https://admin.pizza.example")
  = Demo.origins.
Proof.
  assert (H1 : "https://pizza.example" <> "") by discriminate.
  assert (H2 : Forall comma_free Demo.origins)
    by (repeat constructor; vm_compute; tauto).
  assert (H3 : Forall (fun x => trim x = x) Demo.origins)
    by (repeat constructor).
  split; [exact H1|]. split; [exact H2|]. split; [exact H3|].
  exact (proj1 (proj2 (allowedOrigins_roundtrip "https://pizza.example"
                         ["https://admin.pizza.example"] H1 H2 H3))).
Defined.

Lemma isAddressValid_fields_witness :
  isAddressValid Sample.address = true /\
  100000 <= digitsValue (trim (addr_zip Sample.address)) <= 999999.
Proof.
  assert (H : isAddressValid Sample.address = true) by reflexivity.
  split; [exact H|].
  exact (proj2 (proj1 (proj2 (proj2 (proj2 (proj2
           (isAddressValid_fields Sample.address H))))))).
Defined.
